(** * Accessible recipe page: the preference toggles, the announcement
      channel, the image backfill and the debounced resize listener of
      [script.js], embedded as functions on an explicit page state. *)

From Stdlib Require Import Lia.
From stdpp Require Import base strings list gmap.

Open Scope string_scope.
Open Scope nat_scope.
Open Scope list_scope.

(** ** The page state *)

(** A DOM element, as far as the script looks at it: its attributes. *)
Record Element := mkElement { attributes : gmap string string }.

Definition getAttribute (e : Element) (k : string) : option string :=
  attributes e !! k.

Definition setAttribute (k v : string) (e : Element) : Element :=
  mkElement (<[k := v]> (attributes e)).

(** The two callbacks the script hands to [setTimeout]: the arrow function
    of [announceToScreenReader] that empties the live region, and the arrow
    function of [debounce] that calls the wrapped resize handler. *)
Inductive Task := ClearLiveRegion | RunResizeHandler.

Global Instance Task_eq_dec : EqDecision Task.
Proof. solve_decision. Defined.

(** A pending timer: the handle [setTimeout] returned, the time in
    milliseconds at which it is due, and its callback. *)
Record Timer := mkTimer { tid : nat; due : nat; task : Task }.

(** Everything the script reads or writes.  [storeAccepts] is the browser's
    side of [localStorage.setItem]: given what the store holds, whether it
    takes the write of a key and a value, or refuses it (the quota is
    exhausted, storage is disabled).  [resizeCalls] is a ghost field: the
    wrapped resize handler has an empty body, so the times at which it is
    invoked are recorded here to make its invocations observable. *)
Record Page := mkPage {
  classList : list string;            (* document.documentElement.classList *)
  elements : gmap string Element;     (* document.getElementById *)
  images : list Element;              (* the img elements, in document order *)
  liveRegion : string;                (* liveRegion.textContent *)
  localStorage : gmap string string;
  storeAccepts : gmap string string → string → string → bool;
  now : nat;                          (* the clock, in ms *)
  nextTimer : nat;                    (* the next timer handle *)
  timers : list Timer;                (* pending timers, in creation order *)
  timeout : option nat;               (* the variable closed over by debounce *)
  resizeCalls : list nat
}.

Definition set_classList (v : list string) (p : Page) : Page :=
  mkPage v (elements p) (images p) (liveRegion p) (localStorage p)
         (storeAccepts p) (now p) (nextTimer p) (timers p) (timeout p)
         (resizeCalls p).
Definition set_elements (v : gmap string Element) (p : Page) : Page :=
  mkPage (classList p) v (images p) (liveRegion p) (localStorage p)
         (storeAccepts p) (now p) (nextTimer p) (timers p) (timeout p)
         (resizeCalls p).
Definition set_images (v : list Element) (p : Page) : Page :=
  mkPage (classList p) (elements p) v (liveRegion p) (localStorage p)
         (storeAccepts p) (now p) (nextTimer p) (timers p) (timeout p)
         (resizeCalls p).
Definition set_liveRegion (v : string) (p : Page) : Page :=
  mkPage (classList p) (elements p) (images p) v (localStorage p)
         (storeAccepts p) (now p) (nextTimer p) (timers p) (timeout p)
         (resizeCalls p).
Definition set_localStorage (v : gmap string string) (p : Page) : Page :=
  mkPage (classList p) (elements p) (images p) (liveRegion p) v
         (storeAccepts p) (now p) (nextTimer p) (timers p) (timeout p)
         (resizeCalls p).
Definition set_storeAccepts
    (v : gmap string string → string → string → bool) (p : Page) : Page :=
  mkPage (classList p) (elements p) (images p) (liveRegion p) (localStorage p)
         v (now p) (nextTimer p) (timers p) (timeout p) (resizeCalls p).
Definition set_now (v : nat) (p : Page) : Page :=
  mkPage (classList p) (elements p) (images p) (liveRegion p) (localStorage p)
         (storeAccepts p) v (nextTimer p) (timers p) (timeout p)
         (resizeCalls p).
Definition set_nextTimer (v : nat) (p : Page) : Page :=
  mkPage (classList p) (elements p) (images p) (liveRegion p) (localStorage p)
         (storeAccepts p) (now p) v (timers p) (timeout p) (resizeCalls p).
Definition set_timers (v : list Timer) (p : Page) : Page :=
  mkPage (classList p) (elements p) (images p) (liveRegion p) (localStorage p)
         (storeAccepts p) (now p) (nextTimer p) v (timeout p) (resizeCalls p).
Definition set_timeout (v : option nat) (p : Page) : Page :=
  mkPage (classList p) (elements p) (images p) (liveRegion p) (localStorage p)
         (storeAccepts p) (now p) (nextTimer p) (timers p) v (resizeCalls p).
Definition set_resizeCalls (v : list nat) (p : Page) : Page :=
  mkPage (classList p) (elements p) (images p) (liveRegion p) (localStorage p)
         (storeAccepts p) (now p) (nextTimer p) (timers p) (timeout p) v.

(** A script function either returns or throws (the [TypeError] of a method
    call on [null], the exception of a store that refuses a write); in both
    cases the mutations made so far stay. *)
Inductive Outcome := Returned (p : Page) | Threw (p : Page).

Definition page_of (o : Outcome) : Page :=
  match o with Returned p => p | Threw p => p end.

Definition andThen (o : Outcome) (k : Page -> Outcome) : Outcome :=
  match o with Returned p => k p | Threw p => Threw p end.

(** ** DOM and storage primitives *)

(** [classList.add]: the token is appended unless it is there already. *)
Definition classList_add (c : string) (p : Page) : Page :=
  set_classList (if bool_decide (c ∈ classList p) then classList p
                 else classList p ++ [c]) p.

(** [classList.remove]. *)
Definition classList_remove (c : string) (p : Page) : Page :=
  set_classList (filter (λ x, x ≠ c) (classList p)) p.

Definition getElementById (id : string) (p : Page) : option Element :=
  elements p !! id.

(** [el.setAttribute(k, v)] on the element found under [id]: the element is
    an object in the document, so the write is seen by every later lookup. *)
Definition setAttributeById (id k v : string) (p : Page) : Page :=
  set_elements (alter (setAttribute k v) id (elements p)) p.

Definition getItem (k : string) (p : Page) : option string :=
  localStorage p !! k.

(** What an accepted write leaves in the store. *)
Definition writeItem (k v : string) (p : Page) : Page :=
  set_localStorage (<[k := v]> (localStorage p)) p.

(** [localStorage.setItem(k, v)]: the write, or the exception of a store
    that refuses it, which leaves the store as it was. *)
Definition setItem (k v : string) (p : Page) : Outcome :=
  if storeAccepts p (localStorage p) k v then Returned (writeItem k v p)
  else Threw p.

(** [setItem] stores strings: a boolean argument is converted. *)
Definition js_string_of_bool (b : bool) : string :=
  if b then "true" else "false".

(** ** Timers *)

(** [setTimeout(task, delay)]: a fresh handle, due [delay] ms from now. *)
Definition setTimeout (tk : Task) (delay : nat) (p : Page) : nat * Page :=
  (nextTimer p,
   set_nextTimer (S (nextTimer p))
     (set_timers (timers p ++ [mkTimer (nextTimer p) (now p + delay) tk]) p)).

(** [clearTimeout(h)]: [undefined] and unknown handles are ignored. *)
Definition clearTimeout (h : option nat) (p : Page) : Page :=
  match h with
  | None => p
  | Some i => set_timers (filter (λ tm, tid tm ≠ i) (timers p)) p
  end.

(** What a timer callback does when it runs. *)
Definition run_task (tk : Task) (p : Page) : Page :=
  match tk with
  | ClearLiveRegion => set_liveRegion EmptyString p
  | RunResizeHandler => set_resizeCalls (resizeCalls p ++ [now p]) p
  end.

(** The pending timer that is due first (the older one on a tie), with the
    timers that stay pending. *)
Fixpoint pick_earliest (l : list Timer) : option (Timer * list Timer) :=
  match l with
  | [] => None
  | x :: r =>
      match pick_earliest r with
      | None => Some (x, [])
      | Some (y, r') =>
          if due x <=? due y then Some (x, r) else Some (y, x :: r')
      end
  end.

(** One turn of the event loop: timer [tm] leaves the queue and its callback
    runs, the clock standing at its due time (or later, when the loop was
    busy until then). *)
Definition fire (tm : Timer) (rest : list Timer) (p : Page) : Page :=
  run_task (task tm) (set_timers rest (set_now (now p `max` due tm) p)).

(** The event loop up to time [t]: as long as some pending timer is due at
    or before [t], the earliest one is fired. *)
Fixpoint run_timers (fuel t : nat) (p : Page) : Page :=
  match fuel with
  | 0 => p
  | S fuel' =>
      match pick_earliest (timers p) with
      | None => p
      | Some (tm, rest) =>
          if due tm <=? t then run_timers fuel' t (fire tm rest p) else p
      end
  end.

(** Let the clock reach [t].  No callback of the script sets a timer, so
    one round per pending timer runs every timer that is due. *)
Definition advance_to (t : nat) (p : Page) : Page :=
  let p' := run_timers (length (timers p)) t p in
  set_now (now p' `max` t) p'.

(** ** The announcement channel (script.js, lines 73-79) *)

Definition announceToScreenReader (message : string) (p : Page) : Page :=
  snd (setTimeout ClearLiveRegion 100 (set_liveRegion message p)).

(** ** The toggles (script.js, lines 88-125) *)

Definition toggleHighContrast (p : Page) : Outcome :=
  match getElementById "high-contrast" p with
  | None => Threw p
  | Some highContrastBtn =>
      let isPressed :=
        bool_decide (getAttribute highContrastBtn "aria-pressed" = Some "true") in
      let p1 :=
        if isPressed
        then announceToScreenReader "High contrast mode turned off"
               (setAttributeById "high-contrast" "aria-pressed" "false"
                  (classList_remove "high-contrast" p))
        else announceToScreenReader "High contrast mode turned on"
               (setAttributeById "high-contrast" "aria-pressed" "true"
                  (classList_add "high-contrast" p)) in
      setItem "highContrast" (js_string_of_bool (negb isPressed)) p1
  end.

Definition toggleFontSize (p : Page) : Outcome :=
  match getElementById "font-size" p with
  | None => Threw p
  | Some fontSizeBtn =>
      let isPressed :=
        bool_decide (getAttribute fontSizeBtn "aria-pressed" = Some "true") in
      let p1 :=
        if isPressed
        then announceToScreenReader "Large text mode turned off"
               (setAttributeById "font-size" "aria-pressed" "false"
                  (classList_remove "large-text" p))
        else announceToScreenReader "Large text mode turned on"
               (setAttributeById "font-size" "aria-pressed" "true"
                  (classList_add "large-text" p)) in
      setItem "largeText" (js_string_of_bool (negb isPressed)) p1
  end.

(** ** Restoration at page load (script.js, lines 130-159) *)

(** One of the two [if] statements of [initAccessibilityFeatures]. *)
Definition restorePreference (key cls id : string) (p : Page) : Outcome :=
  if bool_decide (getItem key p = Some "true")
  then
    let p1 := classList_add cls p in
    match getElementById id p1 with
    | None => Threw p1
    | Some _ => Returned (setAttributeById id "aria-pressed" "true" p1)
    end
  else Returned p.

(** The skip-link listeners and [setupFocusTrap] touch nothing of the page
    state and are left out. *)
Definition initAccessibilityFeatures (p : Page) : Outcome :=
  andThen (restorePreference "highContrast" "high-contrast" "high-contrast" p)
    (λ p1,
      andThen (restorePreference "largeText" "large-text" "font-size" p1)
        (λ p2, Returned (classList_add "js-focus-visible" p2))).

(** ** Image backfill (script.js, lines 40-42) *)

(** [img:not([alt])] selects the images without an [alt] attribute; an
    empty [alt] is an attribute all the same. *)
Definition backfillAlt (img : Element) : Element :=
  match getAttribute img "alt" with
  | None => setAttribute "alt" "Decorative image" img
  | Some _ => img
  end.

Definition backfillImages (p : Page) : Page :=
  set_images (backfillAlt <$> images p) p.

(** ** The debounced resize listener (script.js, lines 172-187) *)

(** The function [debounce(func, wait)] returns, [func] being the resize
    handler: cancel the timer remembered in [timeout], set a new one. *)
Definition debounced (wait : nat) (p : Page) : Page :=
  let '(h, p1) := setTimeout RunResizeHandler wait (clearTimeout (timeout p) p) in
  set_timeout (Some h) p1.

Definition onResize (p : Page) : Page := debounced 250 p.

(** ** Events *)

(** The [keydown] listeners of lines 11-16 and 23-28. *)
Definition highContrastKeydown (key : string) (p : Page) : Outcome :=
  if bool_decide (key = "Enter") || bool_decide (key = " ")
  then toggleHighContrast p else Returned p.

Definition fontSizeKeydown (key : string) (p : Page) : Outcome :=
  if bool_decide (key = "Enter") || bool_decide (key = " ")
  then toggleFontSize p else Returned p.

(** What can happen to the page once the listeners are in place. *)
Inductive Event :=
  | ClickHighContrast
  | KeydownHighContrast (key : string)
  | ClickFontSize
  | KeydownFontSize (key : string)
  | Resize.

Definition handle (ev : Event) (p : Page) : Outcome :=
  match ev with
  | ClickHighContrast => toggleHighContrast p
  | KeydownHighContrast key => highContrastKeydown key p
  | ClickFontSize => toggleFontSize p
  | KeydownFontSize key => fontSizeKeydown key p
  | Resize => Returned (onResize p)
  end.

(** An event at time [t] is handled after the timers due by then have run;
    an exception ends the listener and the page lives on. *)
Definition step (p : Page) (tev : nat * Event) : Page :=
  page_of (handle (snd tev) (advance_to (fst tev) p)).

Definition run (sched : list (nat * Event)) (p : Page) : Page :=
  foldl step p sched.

(** A burst of resize events at the given times. *)
Definition resizeBurst (ts : list nat) (p : Page) : Page :=
  foldl (λ q t, onResize (advance_to t q)) p ts.

(** ** Reading the state of a preference *)

Definition hasMarker (cls : string) (p : Page) : Prop := cls ∈ classList p.

Definition ariaPressed (id : string) (p : Page) : option string :=
  getElementById id p ≫= (λ e, getAttribute e "aria-pressed").

Definition pressed (id : string) (p : Page) : Prop :=
  ariaPressed id p = Some "true".

(** The meaning of a stored value, as restoration reads it. *)
Definition storedOn (key : string) (p : Page) : Prop :=
  getItem key p = Some "true".

Global Instance hasMarker_dec cls p : Decision (hasMarker cls p).
Proof. unfold hasMarker. apply _. Defined.

Global Instance pressed_dec id p : Decision (pressed id p).
Proof. unfold pressed. apply _. Defined.

Global Instance storedOn_dec key p : Decision (storedOn key p).
Proof. unfold storedOn. apply _. Defined.

Definition allOn (cls id key : string) (p : Page) : Prop :=
  hasMarker cls p ∧ pressed id p ∧ storedOn key p.

Definition allOff (cls id key : string) (p : Page) : Prop :=
  ¬ hasMarker cls p ∧ ¬ pressed id p ∧ ¬ storedOn key p.


(** Modelled from the spec: the HTML document of the page is not among the
    sources.  The spec has a preference OFF unless the store says "true", and
    nothing at load writes a default, so the document as served carries
    neither the marker class nor a pressed control. *)
Definition servedOff (cls id : string) (p : Page) : Prop :=
  ¬ hasMarker cls p ∧ ¬ pressed id p.

Global Instance servedOff_dec cls id p : Decision (servedOff cls id p).
Proof. unfold servedOff. apply _. Defined.

(** ** Well-formed timer queues *)

(** Pending timers have distinct handles, handles are handed out in
    increasing order, and the handle kept by [debounce] is that of the one
    resize timer that may be pending. *)
Definition timers_wf (p : Page) : Prop :=
  NoDup (tid <$> timers p) ∧
  (∀ tm, tm ∈ timers p → tid tm < nextTimer p) ∧
  (∀ h, timeout p = Some h → h < nextTimer p) ∧
  (∀ tm, tm ∈ timers p →
         (task tm = RunResizeHandler ↔ timeout p = Some (tid tm))).

(** No resize timer is due at or before [t]. *)
Definition resize_quiet (t : nat) (p : Page) : Prop :=
  ∀ tm, tm ∈ timers p → task tm = RunResizeHandler → t < due tm.

(** Times that do not go back from [t0] on, each less than [wait] ms after
    the one before. *)
Fixpoint burst_from (wait t0 : nat) (ts : list nat) : Prop :=
  match ts with
  | [] => True
  | t :: ts' => t0 ≤ t ∧ t < t0 + wait ∧ burst_from wait t ts'
  end.

(** ** The toggles as instances of one controller *)

Definition togglePreference (id cls key onMsg offMsg : string) (p : Page)
  : Outcome :=
  match getElementById id p with
  | None => Threw p
  | Some btn =>
      let isPressed :=
        bool_decide (getAttribute btn "aria-pressed" = Some "true") in
      let p1 :=
        if isPressed
        then announceToScreenReader offMsg
               (setAttributeById id "aria-pressed" "false"
                  (classList_remove cls p))
        else announceToScreenReader onMsg
               (setAttributeById id "aria-pressed" "true"
                  (classList_add cls p)) in
      setItem key (js_string_of_bool (negb isPressed)) p1
  end.

(** The state a toggle has reached when it comes to its last statement, the
    control not having been pressed: marker added, control pressed, the
    on-message announced, the store not yet written. *)
Definition switchedOn (id cls onMsg : string) (p : Page) : Page :=
  mkPage (classList (classList_add cls p))
         (alter (setAttribute "aria-pressed" "true") id (elements p))
         (images p) onMsg (localStorage p) (storeAccepts p) (now p)
         (S (nextTimer p))
         (timers p ++ [mkTimer (nextTimer p) (now p + 100) ClearLiveRegion])
         (timeout p) (resizeCalls p).

(** The same, the control having been pressed. *)
Definition switchedOff (id cls offMsg : string) (p : Page) : Page :=
  mkPage (classList (classList_remove cls p))
         (alter (setAttribute "aria-pressed" "false") id (elements p))
         (images p) offMsg (localStorage p) (storeAccepts p) (now p)
         (S (nextTimer p))
         (timers p ++ [mkTimer (nextTimer p) (now p + 100) ClearLiveRegion])
         (timeout p) (resizeCalls p).

(** The state a toggle returns when the control was not pressed and the
    store takes the write. *)
Definition turnedOn (id cls key onMsg : string) (p : Page) : Page :=
  mkPage (classList (classList_add cls p))
         (alter (setAttribute "aria-pressed" "true") id (elements p))
         (images p) onMsg (<[key := "true"]> (localStorage p))
         (storeAccepts p) (now p) (S (nextTimer p))
         (timers p ++ [mkTimer (nextTimer p) (now p + 100) ClearLiveRegion])
         (timeout p) (resizeCalls p).

(** The state a toggle returns when the control was pressed and the store
    takes the write. *)
Definition turnedOff (id cls key offMsg : string) (p : Page) : Page :=
  mkPage (classList (classList_remove cls p))
         (alter (setAttribute "aria-pressed" "false") id (elements p))
         (images p) offMsg (<[key := "false"]> (localStorage p))
         (storeAccepts p) (now p) (S (nextTimer p))
         (timers p ++ [mkTimer (nextTimer p) (now p + 100) ClearLiveRegion])
         (timeout p) (resizeCalls p).




(** ** The involution as the spec words it *)


(** ** Two activations as the spec words them *)

(** Activating the high-contrast control while it is not pressed leaves the
    marker on the document, the control pressed, "true" stored and the
    on-message in the live region. *)
Definition activation_has_four_effects (p : Page) : Prop :=
  ¬ pressed "high-contrast" p →
  hasMarker "high-contrast" (page_of (toggleHighContrast p)) ∧
  ariaPressed "high-contrast" (page_of (toggleHighContrast p)) = Some "true" ∧
  getItem "highContrast" (page_of (toggleHighContrast p)) = Some "true" ∧
  liveRegion (page_of (toggleHighContrast p)) = "High contrast mode turned on".

(** A toggle that turns high contrast off leaves "false" stored. *)
Definition off_transition_leaves_false (p : Page) : Prop :=
  pressed "high-contrast" p →
  ¬ pressed "high-contrast" (page_of (toggleHighContrast p)) ∧
  getItem "highContrast" (page_of (toggleHighContrast p)) = Some "false".

(** ** A concrete page *)

(** A page as a browser would hand it to the script: both controls with
    [aria-pressed="false"], three images (one without [alt], one with an
    empty [alt], one described), an empty store that takes every write, no
    timer set yet. *)
Definition samplePage : Page :=
  mkPage ["no-js"]
         (<["high-contrast" := mkElement {["aria-pressed" := "false"]}]>
            (<["font-size" := mkElement {["aria-pressed" := "false"]}]> ∅))
         [mkElement {["src" := "soup.jpg"]};
          mkElement (<["src" := "rule.png"]> {["alt" := EmptyString]});
          mkElement (<["src" := "cook.jpg"]> {["alt" := "The cook"]})]
         EmptyString ∅ (λ _ _ _, true) 0 1 [] None [].

(** The same page in a browser whose store refuses every write. *)
Definition refusingPage : Page :=
  set_storeAccepts (λ _ _ _, false) samplePage.

(** That page with high contrast switched on for the session. *)
Definition refusingPageOn : Page :=
  setAttributeById "high-contrast" "aria-pressed" "true"
    (classList_add "high-contrast" refusingPage).

(** ** System media preferences (script.js, lines 189-215) *)

(** Lines 190-193, run once when the script is evaluated: the marker is
    added when the query matches, and nothing is done otherwise. *)
Definition reducedMotionAtLoad (matches : bool) (p : Page) : Page :=
  if matches then classList_add "reduced-motion" p else p.

(** The [change] listener of lines 195-201; [matches] is what
    [mediaQuery.matches] reads when the listener runs. *)
Definition onReducedMotionChange (matches : bool) (p : Page) : Page :=
  if matches then classList_add "reduced-motion" p
  else classList_remove "reduced-motion" p.

(** [updateDarkMode(e)], lines 206-212, on the attributes of the document
    root; [matches] is [e.matches]. *)
Definition updateDarkMode (matches : bool) (root : Element) : Element :=
  if matches then setAttribute "data-theme" "dark" root
  else setAttribute "data-theme" "light" root.

(** Lines 214-215 and the changes of the colour scheme that follow: the
    function is called once with the query itself, then by every [change]
    event. *)
Definition darkModeSession (m0 : bool) (changes : list bool) (root : Element)
  : Element :=
  foldl (λ r m, updateDarkMode m r) (updateDarkMode m0 root) changes.

Definition reducedMotionSession (m0 : bool) (changes : list bool) (p : Page)
  : Page :=
  foldl (λ q m, onReducedMotionChange m q) (reducedMotionAtLoad m0 p) changes.

(** ** Keyboard-navigation detector (script.js, lines 32-37) *)

(** A [keyup] event; the boolean tells whether the listener is still
    registered.  On Tab the listener marks the document and removes itself
    ([arguments.callee] is the listener). *)
Definition onKeyup (key : string) (st : bool * Page) : bool * Page :=
  if fst st
  then if bool_decide (key = "Tab")
       then (false, classList_add "keyboard-navigation" (snd st))
       else st
  else st.

Definition keyups (keys : list string) (st : bool * Page) : bool * Page :=
  foldl (λ s k, onKeyup k s) st keys.

(** ** Tab order (script.js, lines 58-63) *)

(** An element with its tag (local name, lower case as in an HTML
    document). *)
Record Node := mkNode { localName : string; nodeElement : Element }.

(** The selector list
    [button, [href], input, select, textarea, [tabindex]:not([tabindex="-1"])]. *)
Definition matchesFocusable (n : Node) : bool :=
  bool_decide (localName n = "button")
  || bool_decide (is_Some (getAttribute (nodeElement n) "href"))
  || bool_decide (localName n = "input")
  || bool_decide (localName n = "select")
  || bool_decide (localName n = "textarea")
  || (bool_decide (is_Some (getAttribute (nodeElement n) "tabindex"))
      && negb (bool_decide (getAttribute (nodeElement n) "tabindex" = Some "-1"))).

(** What the pass does to one element: [setAttribute('tabindex', '0')] if
    the selector list matches it, nothing otherwise. *)
Definition forcedNode (n : Node) : Node :=
  if matchesFocusable n
  then mkNode (localName n) (setAttribute "tabindex" "0" (nodeElement n))
  else n.

(** [querySelectorAll(focusableElements).forEach(...)] over the elements of
    the document, in document order. *)
Definition forceTabOrder (nodes : list Node) : list Node :=
  forcedNode <$> nodes.

(** ** Reading a session *)



Global Instance Event_eq_dec : EqDecision Event.
Proof. solve_decision. Defined.

(** The events that run a toggle. *)
Definition activatesHighContrast (ev : Event) : bool :=
  match ev with
  | ClickHighContrast => true
  | KeydownHighContrast key => bool_decide (key = "Enter") || bool_decide (key = " ")
  | _ => false
  end.

Definition activatesFontSize (ev : Event) : bool :=
  match ev with
  | ClickFontSize => true
  | KeydownFontSize key => bool_decide (key = "Enter") || bool_decide (key = " ")
  | _ => false
  end.

Fixpoint activations (act : Event → bool) (sched : list (nat * Event)) : nat :=
  match sched with
  | [] => 0
  | tev :: rest => (if act (snd tev) then 1 else 0) + activations act rest
  end.

(** The times of the resize events of a schedule. *)
Fixpoint resize_times (sched : list (nat * Event)) : list nat :=
  match sched with
  | [] => []
  | (t, Resize) :: rest => t :: resize_times rest
  | _ :: rest => resize_times rest
  end.

(** A schedule whose times do not go back from [t0] on and stay at or below
    [T]. *)
Fixpoint sched_between (t0 T : nat) (sched : list (nat * Event)) : Prop :=
  match sched with
  | [] => t0 ≤ T
  | tev :: rest => t0 ≤ fst tev ∧ sched_between (fst tev) T rest
  end.

(** What a trailing-edge debounce of [wait] ms owes by time [T]: a call
    [wait] ms after each event that is followed by [wait] ms of silence. *)
Fixpoint settle (wait t : nat) (ts : list nat) (T : nat) : list nat :=
  match ts with
  | [] => if t + wait <=? T then [t + wait] else []
  | t' :: ts' =>
      (if t + wait <=? t' then [t + wait] else []) ++ settle wait t' ts' T
  end.

Definition debounce_calls (wait : nat) (ts : list nat) (T : nat) : list nat :=
  match ts with
  | [] => []
  | t :: ts' => settle wait t ts' T
  end.

(** No resize timer is pending. *)
Definition resize_idle (p : Page) : Prop :=
  ∀ tm, tm ∈ timers p → task tm ≠ RunResizeHandler.

(** The resize timer set by the event at time [t] is pending. *)
Definition resize_armed (t : nat) (p : Page) : Prop :=
  (∃ X, X ∈ timers p ∧ task X = RunResizeHandler) ∧
  (∀ tm, tm ∈ timers p → task tm = RunResizeHandler → due tm = t + 250) ∧
  now p ≤ t + 250.

Definition resize_state (last : option nat) (p : Page) : Prop :=
  match last with
  | None => resize_idle p
  | Some t => resize_armed t p
  end.

Definition calls_from (last : option nat) (ts : list nat) (T : nat) : list nat :=
  match last with
  | None => debounce_calls 250 ts T
  | Some t => settle 250 t ts T
  end.

(** Text in the live region is on its way out: a clearing is pending and
    due within 100 ms. *)
Definition clear_pending (p : Page) : Prop :=
  liveRegion p = EmptyString ∨
  ∃ c, c ∈ timers p ∧ task c = ClearLiveRegion ∧ due c ≤ now p + 100.

(** * Properties *)

(** ** The source functions are the controller at their constants *)

Lemma toggleHighContrast_controller p :
  toggleHighContrast p =
  togglePreference "high-contrast" "high-contrast" "highContrast"
    "High contrast mode turned on" "High contrast mode turned off" p.
Proof. reflexivity. Qed.

Lemma toggleFontSize_controller p :
  toggleFontSize p =
  togglePreference "font-size" "large-text" "largeText"
    "Large text mode turned on" "Large text mode turned off" p.
Proof. reflexivity. Qed.

(** ** Class list *)

Lemma classList_add_elem c x p :
  x ∈ classList (classList_add c p) ↔ x = c ∨ x ∈ classList p.
Proof.
  unfold classList_add; simpl. case_bool_decide as Hc.
  - split; [auto | intros [-> | ?]; auto].
  - rewrite elem_of_app, list_elem_of_singleton. tauto.
Qed.

Lemma classList_remove_elem c x p :
  x ∈ classList (classList_remove c p) ↔ x ≠ c ∧ x ∈ classList p.
Proof. unfold classList_remove; simpl. by rewrite list_elem_of_filter. Qed.

(** ** The store *)

(** Accepted or refused, a write touches nothing but the store. *)
Lemma setItem_frame k v q :
  set_localStorage (localStorage q) (page_of (setItem k v q)) = q ∧
  classList (page_of (setItem k v q)) = classList q ∧
  elements (page_of (setItem k v q)) = elements q ∧
  liveRegion (page_of (setItem k v q)) = liveRegion q ∧
  now (page_of (setItem k v q)) = now q ∧
  nextTimer (page_of (setItem k v q)) = nextTimer q ∧
  timers (page_of (setItem k v q)) = timers q ∧
  timeout (page_of (setItem k v q)) = timeout q ∧
  resizeCalls (page_of (setItem k v q)) = resizeCalls q ∧
  storeAccepts (page_of (setItem k v q)) = storeAccepts q.
Proof.
  unfold setItem. destruct (storeAccepts q (localStorage q) k v); simpl;
    split_and!; try done; by destruct q.
Qed.

(** A write leaves the key holding the new value or what it held. *)
Lemma setItem_store k v q :
  (setItem k v q = Returned (writeItem k v q) ∧
   storeAccepts q (localStorage q) k v = true) ∨
  (setItem k v q = Threw q ∧ storeAccepts q (localStorage q) k v = false).
Proof. unfold setItem. destruct (storeAccepts q (localStorage q) k v); auto. Qed.

(** ** One controller *)

Section Controller.
Variables id cls key onMsg offMsg : string.

Local Abbreviation toggle := (togglePreference id cls key onMsg offMsg).

Lemma toggle_absent p :
  getElementById id p = None → toggle p = Threw p.
Proof. unfold togglePreference. by intros ->. Qed.

Lemma toggle_when_off p :
  is_Some (getElementById id p) → ¬ pressed id p →
  toggle p = if storeAccepts p (localStorage p) key "true"
             then Returned (turnedOn id cls key onMsg p)
             else Threw (switchedOn id cls onMsg p).
Proof.
  intros [btn Hb] Hoff. unfold togglePreference, pressed, ariaPressed in *.
  rewrite Hb in *. simpl in Hoff.
  rewrite bool_decide_eq_false_2 by done. unfold setItem. simpl.
  by destruct (storeAccepts p (localStorage p) key "true").
Qed.

Lemma toggle_when_on p :
  pressed id p →
  toggle p = if storeAccepts p (localStorage p) key "false"
             then Returned (turnedOff id cls key offMsg p)
             else Threw (switchedOff id cls offMsg p).
Proof.
  unfold togglePreference, pressed, ariaPressed.
  destruct (getElementById id p) as [btn|] eqn:Hb; [|done]. simpl. intros Hon.
  rewrite bool_decide_eq_true_2 by done. unfold setItem. simpl.
  by destruct (storeAccepts p (localStorage p) key "false").
Qed.

(** A toggle of an existing control ends in one of four states. *)
Lemma toggle_cases p :
  is_Some (getElementById id p) →
  (¬ pressed id p ∧ storeAccepts p (localStorage p) key "true" = true ∧
   toggle p = Returned (turnedOn id cls key onMsg p)) ∨
  (¬ pressed id p ∧ storeAccepts p (localStorage p) key "true" = false ∧
   toggle p = Threw (switchedOn id cls onMsg p)) ∨
  (pressed id p ∧ storeAccepts p (localStorage p) key "false" = true ∧
   toggle p = Returned (turnedOff id cls key offMsg p)) ∨
  (pressed id p ∧ storeAccepts p (localStorage p) key "false" = false ∧
   toggle p = Threw (switchedOff id cls offMsg p)).
Proof.
  intros Hb. destruct (decide (pressed id p)) as [Hon | Hoff].
  - rewrite (toggle_when_on p Hon).
    destruct (storeAccepts p (localStorage p) key "false"); auto 10.
  - rewrite (toggle_when_off p Hb Hoff).
    destruct (storeAccepts p (localStorage p) key "true"); auto 10.
Qed.

(** Before the write: marker and indicator are already switched, the store
    is as it was. *)
Lemma switchedOn_state p :
  is_Some (getElementById id p) →
  hasMarker cls (switchedOn id cls onMsg p) ∧
  ariaPressed id (switchedOn id cls onMsg p) = Some "true" ∧
  localStorage (switchedOn id cls onMsg p) = localStorage p ∧
  liveRegion (switchedOn id cls onMsg p) = onMsg.
Proof.
  intros [btn Hb]. unfold hasMarker, ariaPressed, getElementById in Hb |- *.
  simpl. split_and!; try done.
  - apply classList_add_elem. by left.
  - rewrite lookup_alter_eq, Hb. simpl. unfold getAttribute; simpl.
    apply lookup_insert_eq.
Qed.

Lemma switchedOff_state p :
  is_Some (getElementById id p) →
  ¬ hasMarker cls (switchedOff id cls offMsg p) ∧
  ariaPressed id (switchedOff id cls offMsg p) = Some "false" ∧
  localStorage (switchedOff id cls offMsg p) = localStorage p ∧
  liveRegion (switchedOff id cls offMsg p) = offMsg.
Proof.
  intros [btn Hb]. unfold hasMarker, ariaPressed, getElementById in Hb |- *.
  simpl. split_and!; try done.
  - rewrite list_elem_of_filter. tauto.
  - rewrite lookup_alter_eq, Hb. simpl. unfold getAttribute; simpl.
    apply lookup_insert_eq.
Qed.

Lemma turnedOn_allOn p :
  is_Some (getElementById id p) → allOn cls id key (turnedOn id cls key onMsg p).
Proof.
  intros [btn Hb]. unfold allOn, hasMarker, pressed, storedOn, ariaPressed,
    getElementById, getItem in Hb |- *. simpl. split_and!.
  - apply classList_add_elem. by left.
  - rewrite lookup_alter_eq, Hb. simpl. unfold getAttribute; simpl.
    apply lookup_insert_eq.
  - apply lookup_insert_eq.
Qed.

Lemma turnedOff_allOff p :
  is_Some (getElementById id p) → allOff cls id key (turnedOff id cls key offMsg p).
Proof.
  intros [btn Hb]. unfold allOff, hasMarker, pressed, storedOn, ariaPressed,
    getElementById, getItem in Hb |- *. simpl. split_and!.
  - rewrite list_elem_of_filter. tauto.
  - rewrite lookup_alter_eq, Hb. simpl. unfold getAttribute; simpl.
    by rewrite lookup_insert_eq.
  - by rewrite lookup_insert_eq.
Qed.




End Controller.

(** ** Restoration *)

Lemma ariaPressed_set_same id v p :
  is_Some (getElementById id p) →
  ariaPressed id (setAttributeById id "aria-pressed" v p) = Some v.
Proof.
  intros [e He]. unfold ariaPressed, getElementById, setAttributeById in *.
  simpl. rewrite lookup_alter_eq, He. simpl. apply lookup_insert_eq.
Qed.

Lemma ariaPressed_set_other id i v p :
  i ≠ id → ariaPressed i (setAttributeById id "aria-pressed" v p) = ariaPressed i p.
Proof.
  intros Hne. unfold ariaPressed, getElementById, setAttributeById. simpl.
  by rewrite lookup_alter_ne.
Qed.

Lemma getElementById_set id i k v p :
  is_Some (getElementById i (setAttributeById id k v p)) ↔
  is_Some (getElementById i p).
Proof.
  unfold getElementById, setAttributeById. simpl.
  destruct (decide (id = i)) as [-> | Hne].
  - rewrite lookup_alter_eq. apply fmap_is_Some.
  - by rewrite lookup_alter_ne.
Qed.

(** What one [if] of the restoration does to a page whose control exists:
    with "true" stored it adds the marker and presses the control, with
    anything else it does nothing at all. *)
Lemma restorePreference_spec key cls id p :
  is_Some (getElementById id p) →
  ∃ p', restorePreference key cls id p = Returned p' ∧
        localStorage p' = localStorage p ∧
        (∀ x, x ∈ classList p' ↔ (storedOn key p ∧ x = cls) ∨ x ∈ classList p) ∧
        (storedOn key p → ariaPressed id p' = Some "true") ∧
        (¬ storedOn key p → p' = p) ∧
        (∀ i, i ≠ id → ariaPressed i p' = ariaPressed i p) ∧
        (∀ i, is_Some (getElementById i p') ↔ is_Some (getElementById i p)).
Proof.
  intros Hb. unfold restorePreference, storedOn.
  case_bool_decide as Hs.
  - destruct (getElementById id (classList_add cls p)) as [e|] eqn:He.
    2:{ unfold getElementById, classList_add in *; simpl in *.
        rewrite He in Hb. by destruct Hb. }
    eexists; split; [reflexivity |]. split_and!; try done.
    + intros x. change (x ∈ classList (classList_add cls p) ↔
                         (getItem key p = Some "true" ∧ x = cls) ∨ x ∈ classList p).
      rewrite classList_add_elem. tauto.
    + intros _. by apply ariaPressed_set_same.
    + intros i Hi. by rewrite ariaPressed_set_other.
    + intros i. by rewrite getElementById_set.
  - exists p. split_and!; try done. intros x. tauto.
Qed.

(** The whole restoration, both controls being on the page. *)
Lemma initAccessibilityFeatures_spec p :
  is_Some (getElementById "high-contrast" p) →
  is_Some (getElementById "font-size" p) →
  ∃ p', initAccessibilityFeatures p = Returned p' ∧
        localStorage p' = localStorage p ∧
        (∀ x, x ∈ classList p' ↔
              (storedOn "highContrast" p ∧ x = "high-contrast") ∨
              (storedOn "largeText" p ∧ x = "large-text") ∨
              x = "js-focus-visible" ∨ x ∈ classList p) ∧
        (pressed "high-contrast" p' ↔
           storedOn "highContrast" p ∨ pressed "high-contrast" p) ∧
        (pressed "font-size" p' ↔
           storedOn "largeText" p ∨ pressed "font-size" p).
Proof.
  intros Hhc Hfs. unfold initAccessibilityFeatures.
  destruct (restorePreference_spec "highContrast" "high-contrast" "high-contrast" p Hhc)
    as (p1 & -> & Hst1 & Hcl1 & Hon1 & Hoff1 & Hoth1 & Hel1).
  cbn [andThen].
  assert (Hfs1 : is_Some (getElementById "font-size" p1)) by by apply Hel1.
  destruct (restorePreference_spec "largeText" "large-text" "font-size" p1 Hfs1)
    as (p2 & -> & Hst2 & Hcl2 & Hon2 & Hoff2 & Hoth2 & Hel2).
  cbn [andThen]. eexists; split; [reflexivity |].
  assert (Hso : storedOn "largeText" p1 ↔ storedOn "largeText" p)
    by (unfold storedOn, getItem; by rewrite Hst1).
  split_and!.
  - simpl. congruence.
  - intros x. rewrite classList_add_elem, Hcl2, Hcl1, Hso. tauto.
  - unfold pressed.
    change (ariaPressed "high-contrast" (classList_add "js-focus-visible" p2))
      with (ariaPressed "high-contrast" p2).
    rewrite Hoth2 by done.
    destruct (decide (storedOn "highContrast" p)) as [Hs | Hs].
    + rewrite Hon1 by done. tauto.
    + rewrite (Hoff1 Hs). tauto.
  - unfold pressed.
    change (ariaPressed "font-size" (classList_add "js-focus-visible" p2))
      with (ariaPressed "font-size" p2).
    destruct (decide (storedOn "largeText" p1)) as [Hs | Hs].
    + rewrite Hon2 by done. tauto.
    + rewrite (Hoff2 Hs). rewrite Hoth1 by done. tauto.
Qed.

(** ** C1: marker, indicator and stored value agree *)




(** ** C2: two toggles *)

Section TwoToggles.
Variables id cls key onMsg offMsg : string.

Local Abbreviation toggle := (togglePreference id cls key onMsg offMsg).

Lemma turnedOn_control p :
  is_Some (getElementById id p) →
  is_Some (getElementById id (turnedOn id cls key onMsg p)).
Proof.
  unfold getElementById. simpl. rewrite lookup_alter_eq. by rewrite fmap_is_Some.
Qed.


Lemma turnedOff_literals p :
  is_Some (getElementById id p) →
  ariaPressed id (turnedOff id cls key offMsg p) = Some "false" ∧
  getItem key (turnedOff id cls key offMsg p) = Some "false".
Proof.
  intros [btn Hb]. unfold ariaPressed, getElementById, getItem in Hb |- *. simpl.
  rewrite lookup_alter_eq, Hb. simpl. unfold getAttribute. simpl.
  by rewrite !lookup_insert_eq.
Qed.




End TwoToggles.


(** Agreement at the start cannot be dropped either: with the marker class
    on the document and "true" stored but the control not pressed, two
    toggles end with the marker gone. *)
Lemma toggle_twice_needs_agreement :
  let p := writeItem "highContrast" "true" (classList_add "high-contrast" samplePage) in
  ∃ p1 p2, toggleHighContrast p = Returned p1 ∧
           toggleHighContrast p1 = Returned p2 ∧
           hasMarker "high-contrast" p ∧ ¬ hasMarker "high-contrast" p2.
Proof.
  intros p.
  assert (Hb : is_Some (getElementById "high-contrast" p)) by (eexists; reflexivity).
  assert (Hoff : ¬ pressed "high-contrast" p)
    by (apply (bool_decide_unpack _); by vm_compute).
  pose proof (turnedOn_control "high-contrast" "high-contrast" "highContrast"
                "High contrast mode turned on" p Hb) as Hb1.
  pose proof (turnedOn_allOn "high-contrast" "high-contrast" "highContrast"
                "High contrast mode turned on" p Hb) as (_ & Hp1 & _).
  pose proof (turnedOff_allOff "high-contrast" "high-contrast" "highContrast"
                "High contrast mode turned off" _ Hb1) as (Hm2 & _ & _).
  exists (turnedOn "high-contrast" "high-contrast" "highContrast"
            "High contrast mode turned on" p),
         (turnedOff "high-contrast" "high-contrast" "highContrast"
            "High contrast mode turned off"
            (turnedOn "high-contrast" "high-contrast" "highContrast"
               "High contrast mode turned on" p)).
  split_and!.
  - rewrite toggleHighContrast_controller.
    by rewrite (toggle_when_off _ _ _ _ _ p Hb Hoff).
  - rewrite toggleHighContrast_controller.
    by rewrite (toggle_when_on _ _ _ _ _ _ Hp1).
  - apply (bool_decide_unpack _). by vm_compute.
  - exact Hm2.
Qed.



(** ** C3: what restoration makes of a stored value *)

(** A page served with a pressed control keeps it pressed when nothing is
    stored: restoration only ever switches a preference on, which is why the
    statements about it start from the document as served. *)
Lemma restoration_never_switches_off :
  let p := setAttributeById "high-contrast" "aria-pressed" "true" samplePage in
  getItem "highContrast" p = None ∧
  ∃ p', initAccessibilityFeatures p = Returned p' ∧ pressed "high-contrast" p'.
Proof.
  intros p. split; [reflexivity |].
  assert (Hhc : is_Some (getElementById "high-contrast" p)) by (eexists; reflexivity).
  assert (Hfs : is_Some (getElementById "font-size" p)) by (eexists; reflexivity).
  destruct (initAccessibilityFeatures_spec p Hhc Hfs) as (p' & Hret & _ & _ & Hpr & _).
  exists p'. split; [done |]. apply Hpr. right.
  apply (bool_decide_unpack _). by vm_compute.
Qed.

(** C3.  On a page that has the two controls and is served with neither
    preference on, restoration returns, and for each preference the page ends
    ON (marker class present, aria-pressed "true") exactly when the stored
    value is the string "true", and OFF (no marker, aria-pressed not "true")
    exactly when it is anything else or absent; the store is not written. *)
Theorem restoration_on_iff_stored_true (p : Page)
    (Hhc : is_Some (getElementById "high-contrast" p))
    (Hfs : is_Some (getElementById "font-size" p))
    (Hs1 : servedOff "high-contrast" "high-contrast" p)
    (Hs2 : servedOff "large-text" "font-size" p) :
  ∃ p', initAccessibilityFeatures p = Returned p' ∧
        localStorage p' = localStorage p ∧
        (hasMarker "high-contrast" p' ∧ ariaPressed "high-contrast" p' = Some "true"
           ↔ getItem "highContrast" p = Some "true") ∧
        (¬ hasMarker "high-contrast" p' ∧ ariaPressed "high-contrast" p' ≠ Some "true"
           ↔ getItem "highContrast" p ≠ Some "true") ∧
        (hasMarker "large-text" p' ∧ ariaPressed "font-size" p' = Some "true"
           ↔ getItem "largeText" p = Some "true") ∧
        (¬ hasMarker "large-text" p' ∧ ariaPressed "font-size" p' ≠ Some "true"
           ↔ getItem "largeText" p ≠ Some "true").
Proof.
  destruct Hs1 as [Hm1 Hp1], Hs2 as [Hm2 Hp2].
  destruct (initAccessibilityFeatures_spec p Hhc Hfs)
    as (p' & Hret & Hst & Hcl & Hpr1 & Hpr2).
  exists p'. split; [done |]. split; [done |].
  unfold hasMarker, pressed, storedOn in *. rewrite !Hcl, Hpr1, Hpr2.
  split_and!; split.
  - tauto.
  - intros H. split; [left | left]; done.
  - intros [H _] Hs. apply H. left. done.
  - intros H. split; [| tauto].
    intros [[? _] | [[_ ?] | [? | ?]]]; done.
  - tauto.
  - intros H. split; [right; left | left]; done.
  - intros [H _] Hs. apply H. right. left. done.
  - intros H. split; [| tauto].
    intros [[_ ?] | [[? _] | [? | ?]]]; done.
Qed.

Lemma restoration_on_iff_stored_true_witness :
  ∃ p', initAccessibilityFeatures (writeItem "largeText" "true" samplePage) = Returned p' ∧
        localStorage p' = localStorage (writeItem "largeText" "true" samplePage) ∧
        (hasMarker "high-contrast" p' ∧ ariaPressed "high-contrast" p' = Some "true"
           ↔ getItem "highContrast" (writeItem "largeText" "true" samplePage) = Some "true") ∧
        (¬ hasMarker "high-contrast" p' ∧ ariaPressed "high-contrast" p' ≠ Some "true"
           ↔ getItem "highContrast" (writeItem "largeText" "true" samplePage) ≠ Some "true") ∧
        (hasMarker "large-text" p' ∧ ariaPressed "font-size" p' = Some "true"
           ↔ getItem "largeText" (writeItem "largeText" "true" samplePage) = Some "true") ∧
        (¬ hasMarker "large-text" p' ∧ ariaPressed "font-size" p' ≠ Some "true"
           ↔ getItem "largeText" (writeItem "largeText" "true" samplePage) ≠ Some "true").
Proof.
  apply (restoration_on_iff_stored_true (writeItem "largeText" "true" samplePage)).
  - eexists; reflexivity.
  - eexists; reflexivity.
  - apply (bool_decide_unpack _). by vm_compute.
  - apply (bool_decide_unpack _). by vm_compute.
Defined.

(** ** What a toggle does, write accepted or refused *)

Section Effects.
Variables id cls key onMsg offMsg : string.

Lemma toggle_on_effects p :
  is_Some (getElementById id p) → ¬ pressed id p →
  ∃ p', togglePreference id cls key onMsg offMsg p
        = (if storeAccepts p (localStorage p) key "true"
           then Returned p' else Threw p') ∧
        hasMarker cls p' ∧
        ariaPressed id p' = Some "true" ∧
        getItem key p'
        = (if storeAccepts p (localStorage p) key "true"
           then Some "true" else getItem key p) ∧
        liveRegion p' = onMsg ∧
        timers p' =
          timers p ++ [mkTimer (nextTimer p) (now p + 100) ClearLiveRegion] ∧
        (∀ c, c ≠ cls → c ∈ classList p' ↔ c ∈ classList p) ∧
        (∀ i, i ≠ id → getElementById i p' = getElementById i p) ∧
        (∀ k, k ≠ "aria-pressed" →
              (getElementById id p' ≫= λ e, getAttribute e k) =
              (getElementById id p ≫= λ e, getAttribute e k)) ∧
        (∀ k, k ≠ key → getItem k p' = getItem k p) ∧
        images p' = images p ∧ now p' = now p ∧
        timeout p' = timeout p ∧ resizeCalls p' = resizeCalls p.
Proof.
  intros Hb Hoff. rewrite toggle_when_off by done.
  destruct (turnedOn_allOn id cls key onMsg p Hb) as (Hm & Hp & Hs).
  destruct (switchedOn_state id cls onMsg p Hb) as (Hm' & Hp' & _ & _).
  destruct (storeAccepts p (localStorage p) key "true");
    [exists (turnedOn id cls key onMsg p) | exists (switchedOn id cls onMsg p)];
    (split; [done |]); split_and!; try done.
  - intros c Hc.
    change (c ∈ classList (classList_add cls p) ↔ c ∈ classList p).
    rewrite classList_add_elem. tauto.
  - intros i Hi. unfold getElementById. simpl. by rewrite lookup_alter_ne.
  - intros k Hk. unfold getElementById. simpl. rewrite lookup_alter_eq.
    destruct (elements p !! id) as [e|]; [| done]. simpl.
    unfold getAttribute. simpl. by rewrite lookup_insert_ne.
  - intros k Hk. unfold getItem. simpl. by rewrite lookup_insert_ne.
  - intros c Hc.
    change (c ∈ classList (classList_add cls p) ↔ c ∈ classList p).
    rewrite classList_add_elem. tauto.
  - intros i Hi. unfold getElementById. simpl. by rewrite lookup_alter_ne.
  - intros k Hk. unfold getElementById. simpl. rewrite lookup_alter_eq.
    destruct (elements p !! id) as [e|]; [| done]. simpl.
    unfold getAttribute. simpl. by rewrite lookup_insert_ne.
Qed.

Lemma toggle_off_effects p :
  pressed id p →
  ∃ p', togglePreference id cls key onMsg offMsg p
        = (if storeAccepts p (localStorage p) key "false"
           then Returned p' else Threw p') ∧
        ¬ hasMarker cls p' ∧
        ariaPressed id p' = Some "false" ∧
        getItem key p'
        = (if storeAccepts p (localStorage p) key "false"
           then Some "false" else getItem key p) ∧
        liveRegion p' = offMsg ∧
        timers p' =
          timers p ++ [mkTimer (nextTimer p) (now p + 100) ClearLiveRegion] ∧
        (∀ c, c ≠ cls → c ∈ classList p' ↔ c ∈ classList p) ∧
        (∀ i, i ≠ id → getElementById i p' = getElementById i p) ∧
        (∀ k, k ≠ "aria-pressed" →
              (getElementById id p' ≫= λ e, getAttribute e k) =
              (getElementById id p ≫= λ e, getAttribute e k)) ∧
        (∀ k, k ≠ key → getItem k p' = getItem k p) ∧
        images p' = images p ∧ now p' = now p ∧
        timeout p' = timeout p ∧ resizeCalls p' = resizeCalls p.
Proof.
  intros Hon. rewrite toggle_when_on by done.
  assert (Hb : is_Some (getElementById id p)).
  { unfold pressed, ariaPressed in Hon. by destruct (getElementById id p). }
  destruct (turnedOff_allOff id cls key offMsg p Hb) as (Hm & _ & _).
  destruct (turnedOff_literals id cls key offMsg p Hb) as [Ha Hs].
  destruct (switchedOff_state id cls offMsg p Hb) as (Hm' & Hp' & _ & _).
  destruct (storeAccepts p (localStorage p) key "false");
    [exists (turnedOff id cls key offMsg p) | exists (switchedOff id cls offMsg p)];
    (split; [done |]); split_and!; try done.
  - intros c Hc.
    change (c ∈ classList (classList_remove cls p) ↔ c ∈ classList p).
    rewrite classList_remove_elem. tauto.
  - intros i Hi. unfold getElementById. simpl. by rewrite lookup_alter_ne.
  - intros k Hk. unfold getElementById. simpl. rewrite lookup_alter_eq.
    destruct (elements p !! id) as [e|]; [| done]. simpl.
    unfold getAttribute. simpl. by rewrite lookup_insert_ne.
  - intros k Hk. unfold getItem. simpl. by rewrite lookup_insert_ne.
  - intros c Hc.
    change (c ∈ classList (classList_remove cls p) ↔ c ∈ classList p).
    rewrite classList_remove_elem. tauto.
  - intros i Hi. unfold getElementById. simpl. by rewrite lookup_alter_ne.
  - intros k Hk. unfold getElementById. simpl. rewrite lookup_alter_eq.
    destruct (elements p !! id) as [e|]; [| done]. simpl.
    unfold getAttribute. simpl. by rewrite lookup_insert_ne.
Qed.

End Effects.

(** ** C4: switching high contrast on *)

(** C4, as stated, fails: in a browser whose store refuses the write, the
    activation leaves nothing stored under [highContrast]. *)
Lemma activation_with_refused_write_stores_nothing :
  ¬ activation_has_four_effects refusingPage.
Proof.
  intros H. destruct H as (_ & _ & Hs & _).
  - intros Hp. vm_compute in Hp. discriminate Hp.
  - vm_compute in Hs. discriminate Hs.
Qed.

(** C4, amended.  Activating the high-contrast control (a click, or Enter or
    Space on it) while it is not pressed puts the marker class on the
    document root, sets the control's aria-pressed to "true" and puts the
    on-message in the live region (whose clearing is scheduled 100 ms ahead);
    then, if the store accepts the write, the string "true" is stored under
    [highContrast] and the handler returns, and if the store refuses it the
    handler throws with the stored value as it was.  Every other class,
    element, attribute of the control, stored key and the rest of the page
    are as before. *)
Theorem activate_high_contrast_when_off (p : Page)
    (Hb : is_Some (getElementById "high-contrast" p))
    (Hoff : ¬ pressed "high-contrast" p) :
  ∃ p', toggleHighContrast p
        = (if storeAccepts p (localStorage p) "highContrast" "true"
           then Returned p' else Threw p') ∧
        handle ClickHighContrast p = toggleHighContrast p ∧
        handle (KeydownHighContrast "Enter") p = toggleHighContrast p ∧
        handle (KeydownHighContrast " ") p = toggleHighContrast p ∧
        hasMarker "high-contrast" p' ∧
        ariaPressed "high-contrast" p' = Some "true" ∧
        getItem "highContrast" p'
        = (if storeAccepts p (localStorage p) "highContrast" "true"
           then Some "true" else getItem "highContrast" p) ∧
        liveRegion p' = "High contrast mode turned on" ∧
        timers p' =
          timers p ++ [mkTimer (nextTimer p) (now p + 100) ClearLiveRegion] ∧
        (∀ c, c ≠ "high-contrast" → c ∈ classList p' ↔ c ∈ classList p) ∧
        (∀ i, i ≠ "high-contrast" → getElementById i p' = getElementById i p) ∧
        (∀ k, k ≠ "aria-pressed" →
              (getElementById "high-contrast" p' ≫= λ e, getAttribute e k) =
              (getElementById "high-contrast" p ≫= λ e, getAttribute e k)) ∧
        (∀ k, k ≠ "highContrast" → getItem k p' = getItem k p) ∧
        images p' = images p ∧ now p' = now p ∧
        timeout p' = timeout p ∧ resizeCalls p' = resizeCalls p.
Proof.
  destruct (toggle_on_effects "high-contrast" "high-contrast" "highContrast"
              "High contrast mode turned on" "High contrast mode turned off"
              p Hb Hoff) as (p' & Hret & Hrest).
  rewrite <- toggleHighContrast_controller in Hret.
  exists p'. split; [exact Hret |]. split; [done |]. split; [done |].
  split; [done |]. exact Hrest.
Qed.

Lemma activate_high_contrast_when_off_witness :
  (∃ p', toggleHighContrast samplePage = Returned p' ∧
         hasMarker "high-contrast" p' ∧
         ariaPressed "high-contrast" p' = Some "true" ∧
         getItem "highContrast" p' = Some "true" ∧
         liveRegion p' = "High contrast mode turned on") ∧
  (∃ p', toggleHighContrast refusingPage = Threw p' ∧
         hasMarker "high-contrast" p' ∧
         ariaPressed "high-contrast" p' = Some "true" ∧
         getItem "highContrast" p' = None ∧
         liveRegion p' = "High contrast mode turned on").
Proof.
  split.
  - destruct (activate_high_contrast_when_off samplePage)
      as (p' & H & _ & _ & _ & H1 & H2 & H3 & H4 & _).
    + eexists; reflexivity.
    + apply (bool_decide_unpack _). by vm_compute.
    + exists p'. done.
  - destruct (activate_high_contrast_when_off refusingPage)
      as (p' & H & _ & _ & _ & H1 & H2 & H3 & H4 & _).
    + eexists; reflexivity.
    + apply (bool_decide_unpack _). by vm_compute.
    + exists p'. done.
Defined.

(** ** C9: the toggles do not touch each other's preference *)

Section Frame.
Variables id cls key onMsg offMsg : string.
Variables id' cls' key' : string.
Hypothesis Hid : id' ≠ id.
Hypothesis Hcls : cls' ≠ cls.
Hypothesis Hkey : key' ≠ key.

(** A controller leaves the marker, control and key of any other
    preference alone, whether it returns or throws. *)
Lemma toggle_frame p :
  let p' := page_of (togglePreference id cls key onMsg offMsg p) in
  (hasMarker cls' p' ↔ hasMarker cls' p) ∧
  getElementById id' p' = getElementById id' p ∧
  getItem key' p' = getItem key' p.
Proof.
  destruct (getElementById id p) as [btn|] eqn:Hb.
  2:{ rewrite toggle_absent by done. done. }
  destruct (decide (pressed id p)) as [Hon | Hoff].
  - rewrite toggle_when_on by done.
    destruct (storeAccepts p (localStorage p) key "false");
      unfold hasMarker, getElementById, getItem; simpl; split_and!;
      try (rewrite list_elem_of_filter; tauto);
      try (by rewrite lookup_alter_ne);
      try (by rewrite lookup_insert_ne); done.
  - rewrite toggle_when_off by (by rewrite ?Hb).
    destruct (storeAccepts p (localStorage p) key "true");
      unfold hasMarker, getElementById, getItem; simpl; split_and!;
      try (change (cls' ∈ classList (classList_add cls p) ↔ cls' ∈ classList p);
           rewrite classList_add_elem; tauto);
      try (by rewrite lookup_alter_ne);
      try (by rewrite lookup_insert_ne); done.
Qed.
End Frame.

(** C9.  In every state, and whether it returns or throws,
    [toggleHighContrast] leaves the large-text marker class, the font-size
    control (its aria-pressed with it) and the stored [largeText] value as
    they were, and [toggleFontSize] does the same for the high-contrast
    marker, control and stored [highContrast] value. *)
Theorem toggles_are_independent (p : Page) :
  ((hasMarker "large-text" (page_of (toggleHighContrast p)) ↔ hasMarker "large-text" p) ∧
   getElementById "font-size" (page_of (toggleHighContrast p)) = getElementById "font-size" p ∧
   ariaPressed "font-size" (page_of (toggleHighContrast p)) = ariaPressed "font-size" p ∧
   getItem "largeText" (page_of (toggleHighContrast p)) = getItem "largeText" p) ∧
  ((hasMarker "high-contrast" (page_of (toggleFontSize p)) ↔ hasMarker "high-contrast" p) ∧
   getElementById "high-contrast" (page_of (toggleFontSize p)) = getElementById "high-contrast" p ∧
   ariaPressed "high-contrast" (page_of (toggleFontSize p)) = ariaPressed "high-contrast" p ∧
   getItem "highContrast" (page_of (toggleFontSize p)) = getItem "highContrast" p).
Proof.
  split.
  - rewrite toggleHighContrast_controller.
    destruct (toggle_frame "high-contrast" "high-contrast" "highContrast"
                "High contrast mode turned on" "High contrast mode turned off"
                "font-size" "large-text" "largeText") with (p := p)
      as (Hm & He & Hs); try done.
    split_and!; try done. unfold ariaPressed. by rewrite He.
  - rewrite toggleFontSize_controller.
    destruct (toggle_frame "font-size" "large-text" "largeText"
                "Large text mode turned on" "Large text mode turned off"
                "high-contrast" "high-contrast" "highContrast") with (p := p)
      as (Hm & He & Hs); try done.
    split_and!; try done. unfold ariaPressed. by rewrite He.
Qed.

(** ** The timer queue *)

Lemma pick_earliest_None l : pick_earliest l = None → l = [].
Proof.
  destruct l as [| x r]; [done |]. simpl.
  destruct (pick_earliest r) as [[y r'] |]; [| done].
  by destruct (due x <=? due y).
Qed.

Lemma pick_earliest_Permutation l y r :
  pick_earliest l = Some (y, r) → l ≡ₚ y :: r.
Proof.
  revert y r. induction l as [| x l IH]; intros y r; [done |]. simpl.
  destruct (pick_earliest l) as [[y' r'] |] eqn:Hp.
  - destruct (due x <=? due y'); intros [= <- <-]; [done |].
    rewrite (IH _ _ eq_refl). apply perm_swap.
  - intros [= <- <-]. by rewrite (pick_earliest_None l Hp).
Qed.

Lemma pick_earliest_min l y r :
  pick_earliest l = Some (y, r) → ∀ x, x ∈ l → due y ≤ due x.
Proof.
  revert y r. induction l as [| x l IH]; intros y r; [done |]. simpl.
  destruct (pick_earliest l) as [[y' r'] |] eqn:Hp.
  - destruct (due x <=? due y') eqn:Hle; intros [= <- <-] z Hz.
    + apply Nat.leb_le in Hle. apply elem_of_cons in Hz as [-> | Hz]; [lia |].
      specialize (IH _ _ eq_refl z Hz). lia.
    + apply Nat.leb_gt in Hle. apply elem_of_cons in Hz as [-> | Hz]; [lia |].
      by apply (IH _ _ eq_refl).
  - intros [= <- <-] z Hz. rewrite (pick_earliest_None l Hp) in Hz.
    apply list_elem_of_singleton in Hz as ->. lia.
Qed.

Lemma pick_earliest_length l y r :
  pick_earliest l = Some (y, r) → length l = S (length r).
Proof. intros H%pick_earliest_Permutation. by rewrite H. Qed.

Lemma pick_earliest_elem l y r x :
  pick_earliest l = Some (y, r) → x ∈ l ↔ x = y ∨ x ∈ r.
Proof. intros H%pick_earliest_Permutation. by rewrite H, elem_of_cons. Qed.

(** What firing a timer changes. *)
Lemma fire_fields tm rest p :
  classList (fire tm rest p) = classList p ∧
  elements (fire tm rest p) = elements p ∧
  images (fire tm rest p) = images p ∧
  localStorage (fire tm rest p) = localStorage p ∧
  nextTimer (fire tm rest p) = nextTimer p ∧
  timeout (fire tm rest p) = timeout p ∧
  timers (fire tm rest p) = rest ∧
  now (fire tm rest p) = now p `max` due tm ∧
  liveRegion (fire tm rest p) =
    (if decide (task tm = ClearLiveRegion) then EmptyString else liveRegion p) ∧
  resizeCalls (fire tm rest p) =
    (if decide (task tm = RunResizeHandler)
     then resizeCalls p ++ [now p `max` due tm] else resizeCalls p).
Proof. unfold fire. by destruct (task tm). Qed.

(** The event loop leaves the document and the store alone, hands out no
    handle and sets no timer. *)
Lemma run_timers_frame fuel t p :
  classList (run_timers fuel t p) = classList p ∧
  elements (run_timers fuel t p) = elements p ∧
  images (run_timers fuel t p) = images p ∧
  localStorage (run_timers fuel t p) = localStorage p ∧
  nextTimer (run_timers fuel t p) = nextTimer p ∧
  timeout (run_timers fuel t p) = timeout p ∧
  (∀ tm, tm ∈ timers (run_timers fuel t p) → tm ∈ timers p).
Proof.
  revert p. induction fuel as [| fuel IH]; intros p; [done |]. simpl.
  destruct (pick_earliest (timers p)) as [[tm rest] |] eqn:Hp; [| done].
  destruct (due tm <=? t); [| done].
  destruct (IH (fire tm rest p)) as (-> & -> & -> & -> & -> & -> & Hsub).
  destruct (fire_fields tm rest p) as (-> & -> & -> & -> & -> & -> & Hr & _).
  split_and!; try done.
  intros x Hx. apply Hsub in Hx. rewrite Hr in Hx.
  apply (pick_earliest_elem _ _ _ x Hp). by right.
Qed.

(** A timer that is not yet due stays in the queue. *)
Lemma run_timers_keeps fuel t p tm :
  tm ∈ timers p → t < due tm → tm ∈ timers (run_timers fuel t p).
Proof.
  revert p. induction fuel as [| fuel IH]; intros p Hin Hlt; [done |]. simpl.
  destruct (pick_earliest (timers p)) as [[y rest] |] eqn:Hp; [| done].
  destruct (due y <=? t) eqn:Hle; [| done]. apply Nat.leb_le in Hle.
  apply IH; [| done]. destruct (fire_fields y rest p) as (_ & _ & _ & _ & _ & _ & -> & _).
  apply (pick_earliest_elem _ _ _ tm Hp) in Hin as [-> | Hin]; [lia | done].
Qed.

(** One round per pending timer is enough: afterwards no pending timer is
    due at or before [t]. *)
Lemma run_timers_drains fuel t p tm :
  length (timers p) ≤ fuel → tm ∈ timers (run_timers fuel t p) → t < due tm.
Proof.
  revert p. induction fuel as [| fuel IH]; intros p Hlen Hin.
  { destruct (timers p) eqn:E; [| simpl in Hlen; lia].
    simpl in Hin. rewrite E in Hin. by apply elem_of_nil in Hin. }
  simpl in Hin. destruct (pick_earliest (timers p)) as [[y rest] |] eqn:Hp.
  2:{ apply pick_earliest_None in Hp. rewrite Hp in Hin. by apply elem_of_nil in Hin. }
  destruct (due y <=? t) eqn:Hle.
  - apply (IH (fire y rest p)); [| done].
    destruct (fire_fields y rest p) as (_ & _ & _ & _ & _ & _ & -> & _).
    apply pick_earliest_length in Hp. lia.
  - apply Nat.leb_gt in Hle. pose proof (pick_earliest_min _ _ _ Hp tm Hin). lia.
Qed.

Lemma advance_to_drains t p tm : tm ∈ timers (advance_to t p) → t < due tm.
Proof. apply run_timers_drains. done. Qed.

(** The clock never runs backwards and ends no later than [t] unless it
    was later already. *)
Lemma run_timers_now fuel t p :
  now p ≤ now (run_timers fuel t p) ∧ now (run_timers fuel t p) ≤ now p `max` t.
Proof.
  revert p. induction fuel as [| fuel IH]; intros p; [simpl; lia |]. simpl.
  destruct (pick_earliest (timers p)) as [[y rest] |] eqn:Hp; [| lia].
  destruct (due y <=? t) eqn:Hle; [| lia]. apply Nat.leb_le in Hle.
  destruct (IH (fire y rest p)) as [H1 H2].
  destruct (fire_fields y rest p) as (_ & _ & _ & _ & _ & _ & _ & Hn & _).
  rewrite Hn in *. lia.
Qed.

Lemma advance_to_now t p : now (advance_to t p) = now p `max` t.
Proof.
  unfold advance_to. simpl.
  pose proof (run_timers_now (length (timers p)) t p). lia.
Qed.

(** Callbacks only ever empty the live region. *)
Lemma run_timers_liveRegion fuel t p :
  liveRegion (run_timers fuel t p) = liveRegion p ∨
  liveRegion (run_timers fuel t p) = EmptyString.
Proof.
  revert p. induction fuel as [| fuel IH]; intros p; [by left |]. simpl.
  destruct (pick_earliest (timers p)) as [[y rest] |] eqn:Hp; [| by left].
  destruct (due y <=? t); [| by left].
  destruct (fire_fields y rest p) as (_ & _ & _ & _ & _ & _ & _ & _ & Hl & _).
  destruct (IH (fire y rest p)) as [-> | ->]; [| by right].
  rewrite Hl. case_decide; [by right | by left].
Qed.

(** With enough rounds, a clearing that is due empties the live region. *)
Lemma run_timers_clears fuel t p tm :
  length (timers p) ≤ fuel →
  tm ∈ timers p → task tm = ClearLiveRegion → due tm ≤ t →
  liveRegion (run_timers fuel t p) = EmptyString.
Proof.
  revert p. induction fuel as [| fuel IH]; intros p Hlen Hin Htk Hdue.
  { destruct (timers p); [by apply elem_of_nil in Hin | simpl in Hlen; lia]. }
  simpl. destruct (pick_earliest (timers p)) as [[y rest] |] eqn:Hp.
  2:{ apply pick_earliest_None in Hp. rewrite Hp in Hin. by apply elem_of_nil in Hin. }
  pose proof (pick_earliest_min _ _ _ Hp tm Hin) as Hmin.
  rewrite (proj2 (Nat.leb_le _ _)) by lia.
  destruct (fire_fields y rest p) as (_ & _ & _ & _ & _ & _ & Hr & _ & Hl & _).
  destruct (decide (task y = ClearLiveRegion)) as [Hy | Hy].
  - destruct (run_timers_liveRegion fuel t (fire y rest p)) as [-> | ->]; [| done].
    rewrite Hl. repeat case_decide; done.
  - apply IH; [| | done | done].
    + rewrite Hr. apply pick_earliest_length in Hp. lia.
    + rewrite Hr. apply (pick_earliest_elem _ _ _ tm Hp) in Hin as [-> | Hin]; done.
Qed.

(** While no timer with callback [k] is due, the loop runs no such callback:
    the live region keeps its text if [k] is the clearing, the resize
    handler is not called if [k] is the resize callback. *)
Lemma run_timers_quiet k fuel t p :
  (∀ tm, tm ∈ timers p → task tm = k → t < due tm) →
  (k = ClearLiveRegion → liveRegion (run_timers fuel t p) = liveRegion p) ∧
  (k = RunResizeHandler → resizeCalls (run_timers fuel t p) = resizeCalls p).
Proof.
  revert p. induction fuel as [| fuel IH]; intros p Hq; [done |]. simpl.
  destruct (pick_earliest (timers p)) as [[y rest] |] eqn:Hp; [| done].
  destruct (due y <=? t) eqn:Hle; [| done]. apply Nat.leb_le in Hle.
  assert (Hy : task y ≠ k).
  { intros Hk. assert (t < due y); [| lia].
    apply Hq; [| done]. apply (pick_earliest_elem _ _ _ y Hp). by left. }
  destruct (fire_fields y rest p) as (_ & _ & _ & _ & _ & _ & Hr & _ & Hl & Hc).
  destruct (IH (fire y rest p)) as [IH1 IH2].
  { intros tm Hin. rewrite Hr in Hin. apply Hq.
    apply (pick_earliest_elem _ _ _ tm Hp). by right. }
  split; intros ->.
  - rewrite IH1, Hl by done. by rewrite decide_False.
  - rewrite IH2, Hc by done. by rewrite decide_False.
Qed.

(** ** C5 and C6: the announcement channel *)

Lemma announce_fields msg p :
  liveRegion (announceToScreenReader msg p) = msg ∧
  timers (announceToScreenReader msg p) =
    timers p ++ [mkTimer (nextTimer p) (now p + 100) ClearLiveRegion] ∧
  nextTimer (announceToScreenReader msg p) = S (nextTimer p) ∧
  now (announceToScreenReader msg p) = now p ∧
  timeout (announceToScreenReader msg p) = timeout p ∧
  resizeCalls (announceToScreenReader msg p) = resizeCalls p.
Proof. done. Qed.

Lemma advance_to_timers t p :
  timers (advance_to t p) = timers (run_timers (length (timers p)) t p).
Proof. done. Qed.

Lemma advance_to_frame t p :
  classList (advance_to t p) = classList p ∧
  elements (advance_to t p) = elements p ∧
  images (advance_to t p) = images p ∧
  localStorage (advance_to t p) = localStorage p ∧
  nextTimer (advance_to t p) = nextTimer p ∧
  timeout (advance_to t p) = timeout p.
Proof.
  destruct (run_timers_frame (length (timers p)) t p) as (H1 & H2 & H3 & H4 & H5 & H6 & _).
  by split_and!.
Qed.

Lemma advance_to_liveRegion t p :
  liveRegion (advance_to t p) = liveRegion (run_timers (length (timers p)) t p).
Proof. done. Qed.

(** C5.  For every message and every state of the page, the live region
    holds the message as soon as [announceToScreenReader] returns, and, with
    no other call in between, it is empty once the clock has reached 100 ms
    after the call (and at any later time). *)
Theorem announce_sets_then_clears (msg : string) (p : Page) :
  liveRegion (announceToScreenReader msg p) = msg ∧
  ∀ t, now p + 100 ≤ t →
       liveRegion (advance_to t (announceToScreenReader msg p)) = EmptyString.
Proof.
  split; [done |]. intros t Ht. rewrite advance_to_liveRegion.
  apply (run_timers_clears _ _ _ (mkTimer (nextTimer p) (now p + 100) ClearLiveRegion));
    [done | | done | simpl; lia].
  destruct (announce_fields msg p) as (_ & -> & _).
  apply elem_of_app. right. by apply list_elem_of_singleton.
Qed.

Lemma announce_sets_then_clears_witness :
  liveRegion (announceToScreenReader "Saved" samplePage) = "Saved" ∧
  liveRegion (advance_to 100 (announceToScreenReader "Saved" samplePage)) = EmptyString.
Proof.
  destruct (announce_sets_then_clears "Saved" samplePage) as [H1 H2].
  split; [exact H1 |]. apply H2. simpl. lia.
Defined.

(** C6.  A call of [announceToScreenReader] cancels nothing: every timer
    that was pending is pending after it.  So when a second call comes [d] ms
    after a first one, 0 < d < 100, the clearing set by the first call is
    still in the queue next to the second call's own; the live region, which
    holds the second message from the call on (and keeps it up to any time
    before the first clearing is due, no older clearing being pending), is
    empty 100 ms after the first call, which is earlier than 100 ms after the
    second. *)
Theorem earlier_clear_cuts_newer_message (p : Page) (m1 m2 : string) (d : nat)
    (Hd : 0 < d < 100) :
  let p1 := announceToScreenReader m1 p in
  let p2 := advance_to (now p + d) p1 in
  let p3 := announceToScreenReader m2 p2 in
  (∀ q m tm, tm ∈ timers q → tm ∈ timers (announceToScreenReader m q)) ∧
  mkTimer (nextTimer p) (now p + 100) ClearLiveRegion ∈ timers p3 ∧
  mkTimer (S (nextTimer p)) (now p + d + 100) ClearLiveRegion ∈ timers p3 ∧
  now p3 = now p + d ∧
  liveRegion p3 = m2 ∧
  (∀ t, t < now p + 100 →
        (∀ tm, tm ∈ timers p → task tm = ClearLiveRegion → t < due tm) →
        liveRegion (advance_to t p3) = m2) ∧
  liveRegion (advance_to (now p + 100) p3) = EmptyString ∧
  now (advance_to (now p + 100) p3) = now p + 100 ∧
  now p + 100 < now p3 + 100.
Proof.
  intros p1 p2 p3.
  assert (Hkeep : ∀ q m tm, tm ∈ timers q → tm ∈ timers (announceToScreenReader m q)).
  { intros q m tm Hin. destruct (announce_fields m q) as (_ & -> & _).
    apply elem_of_app. by left. }
  assert (Hfirst1 : mkTimer (nextTimer p) (now p + 100) ClearLiveRegion ∈ timers p1).
  { unfold p1. destruct (announce_fields m1 p) as (_ & -> & _).
    apply elem_of_app. right. by apply list_elem_of_singleton. }
  assert (Hfirst2 : mkTimer (nextTimer p) (now p + 100) ClearLiveRegion ∈ timers p2).
  { unfold p2. rewrite advance_to_timers. apply run_timers_keeps; [done | simpl; lia]. }
  assert (Hnow2 : now p2 = now p + d).
  { unfold p2. rewrite advance_to_now. change (now p1) with (now p). lia. }
  assert (Hnext2 : nextTimer p2 = S (nextTimer p)).
  { unfold p2. by destruct (advance_to_frame (now p + d) p1) as (_ & _ & _ & _ & -> & _). }
  assert (Hnow3 : now p3 = now p + d) by exact Hnow2.
  split_and!; try done.
  - by apply Hkeep.
  - unfold p3. destruct (announce_fields m2 p2) as (_ & -> & _).
    apply elem_of_app. right. apply list_elem_of_singleton.
    by rewrite Hnext2, Hnow2.
  - intros t Ht Hold. rewrite advance_to_liveRegion.
    apply (run_timers_quiet ClearLiveRegion); [| done].
    intros tm Hin Htk. unfold p3 in Hin.
    destruct (announce_fields m2 p2) as (_ & E & _). rewrite E in Hin. clear E.
    apply elem_of_app in Hin as [Hin | Hin].
    + unfold p2 in Hin. rewrite advance_to_timers in Hin.
      apply run_timers_frame in Hin. unfold p1 in Hin.
      destruct (announce_fields m1 p) as (_ & E & _). rewrite E in Hin. clear E.
      apply elem_of_app in Hin as [Hin | Hin]; [by apply Hold |].
      apply list_elem_of_singleton in Hin as ->. simpl. lia.
    + apply list_elem_of_singleton in Hin as ->. simpl. lia.
  - rewrite advance_to_liveRegion.
    apply (run_timers_clears _ _ _ (mkTimer (nextTimer p) (now p + 100) ClearLiveRegion));
      [done | by apply Hkeep | done | done].
  - rewrite advance_to_now, Hnow3. lia.
  - lia.
Qed.

Lemma earlier_clear_cuts_newer_message_witness :
  liveRegion (announceToScreenReader "second"
                (advance_to 60 (announceToScreenReader "first" samplePage))) = "second" ∧
  liveRegion (advance_to 100
                (announceToScreenReader "second"
                   (advance_to 60 (announceToScreenReader "first" samplePage)))) = EmptyString.
Proof.
  assert (Hd : 0 < 60 < 100) by lia.
  destruct (earlier_clear_cuts_newer_message samplePage "first" "second" 60 Hd)
    as (_ & _ & _ & _ & H1 & _ & H2 & _).
  split; [exact H1 | exact H2].
Defined.

(** ** C7: the image backfill *)

Lemma backfillAlt_missing img :
  getAttribute img "alt" = None →
  getAttribute (backfillAlt img) "alt" = Some "Decorative image" ∧
  ∀ k, k ≠ "alt" → getAttribute (backfillAlt img) k = getAttribute img k.
Proof.
  intros Hn. unfold backfillAlt. rewrite Hn. unfold getAttribute. simpl. split.
  - apply lookup_insert_eq.
  - intros k Hk. by rewrite lookup_insert_ne.
Qed.

Lemma backfillAlt_present img v :
  getAttribute img "alt" = Some v → backfillAlt img = img.
Proof. intros Hs. unfold backfillAlt. by rewrite Hs. Qed.

(** C7.  After the backfill the page has the same images in the same order,
    and for the image at each position: if it had no [alt] attribute it now
    has [alt="Decorative image"] and its other attributes as before; if it
    had an [alt] attribute, the empty string included, it is the image it
    was.  Nothing but the images is touched. *)
Theorem backfill_describes_undescribed_images (p : Page) (i : nat) (img : Element)
    (Hi : images p !! i = Some img) :
  length (images (backfillImages p)) = length (images p) ∧
  set_images (images p) (backfillImages p) = p ∧
  ∃ img', images (backfillImages p) !! i = Some img' ∧
          (getAttribute img "alt" = None →
             getAttribute img' "alt" = Some "Decorative image" ∧
             ∀ k, k ≠ "alt" → getAttribute img' k = getAttribute img k) ∧
          (∀ v, getAttribute img "alt" = Some v → img' = img).
Proof.
  split_and!.
  - unfold backfillImages. simpl. apply length_fmap.
  - by destruct p.
  - exists (backfillAlt img). split_and!.
    + unfold backfillImages. simpl. by rewrite list_lookup_fmap, Hi.
    + apply backfillAlt_missing.
    + apply backfillAlt_present.
Qed.

Lemma backfill_describes_undescribed_images_witness :
  (images (backfillImages samplePage) !! 0 ≫= λ e, getAttribute e "alt")
    = Some "Decorative image" ∧
  images (backfillImages samplePage) !! 1 = images samplePage !! 1 ∧
  (images samplePage !! 1 ≫= λ e, getAttribute e "alt") = Some EmptyString.
Proof.
  destruct (backfill_describes_undescribed_images samplePage 0
              (mkElement {["src" := "soup.jpg"]}) eq_refl)
    as (_ & _ & img0 & E0 & H0 & _).
  destruct (backfill_describes_undescribed_images samplePage 1
              (mkElement (<["src" := "rule.png"]> {["alt" := EmptyString]})) eq_refl)
    as (_ & _ & img1 & E1 & _ & H1).
  split_and!.
  - rewrite E0. simpl. apply H0. reflexivity.
  - rewrite E1, (H1 EmptyString) by reflexivity. reflexivity.
  - reflexivity.
Defined.

(** ** C10: what is stored when a preference goes off *)

Lemma toggle_keeps_keys id cls key onMsg offMsg k p :
  is_Some (getItem k p) →
  is_Some (getItem k (page_of (togglePreference id cls key onMsg offMsg p))).
Proof.
  intros Hk. unfold togglePreference.
  destruct (getElementById id p) as [btn|]; [| done].
  unfold setItem, getItem in *. simpl.
  case_bool_decide; simpl;
    match goal with |- context [storeAccepts p ?m ?a ?b] =>
      destruct (storeAccepts p m a b) end; simpl;
    rewrite ?lookup_insert_is_Some'; auto.
Qed.

Lemma onResize_localStorage p : localStorage (onResize p) = localStorage p.
Proof. unfold onResize, debounced. by destruct (timeout p). Qed.

Lemma handle_keeps_keys ev k p :
  is_Some (getItem k p) → is_Some (getItem k (page_of (handle ev p))).
Proof.
  intros Hk.
  destruct ev as [| key | | key |]; simpl;
    unfold highContrastKeydown, fontSizeKeydown;
    try (destruct (bool_decide (key = "Enter") || bool_decide (key = " ")); [| done]);
    rewrite ?toggleHighContrast_controller, ?toggleFontSize_controller;
    try by apply toggle_keeps_keys.
  unfold getItem. by rewrite onResize_localStorage.
Qed.

(** No event of the page's life removes a key from the store. *)
Lemma run_keeps_keys sched k p :
  is_Some (getItem k p) → is_Some (getItem k (run sched p)).
Proof.
  revert p. induction sched as [| [t ev] sched IH]; intros p Hk; [done |].
  simpl. apply IH. unfold step. simpl. apply handle_keeps_keys.
  unfold getItem in *. by destruct (advance_to_frame t p) as (_ & _ & _ & -> & _).
Qed.

Lemma restorePreference_localStorage key cls id p :
  localStorage (page_of (restorePreference key cls id p)) = localStorage p.
Proof.
  unfold restorePreference. case_bool_decide; [| done].
  by destruct (getElementById id (classList_add cls p)).
Qed.

(** Restoration reads the store and never writes it, even when it throws. *)
Lemma initAccessibilityFeatures_localStorage p :
  localStorage (page_of (initAccessibilityFeatures p)) = localStorage p.
Proof.
  unfold initAccessibilityFeatures.
  pose proof (restorePreference_localStorage "highContrast" "high-contrast" "high-contrast" p) as H1.
  destruct (restorePreference "highContrast" "high-contrast" "high-contrast" p) as [p1 | p1];
    simpl in *; [| done].
  pose proof (restorePreference_localStorage "largeText" "large-text" "font-size" p1) as H2.
  destruct (restorePreference "largeText" "large-text" "font-size" p1) as [p2 | p2];
    simpl in *; congruence.
Qed.

(** C10, as stated, fails: in a browser whose store refuses the write, the
    toggle that turns high contrast off leaves the key as it was, here
    absent. *)
Lemma off_transition_with_refused_write :
  ¬ off_transition_leaves_false refusingPageOn.
Proof.
  intros H. destruct H as [_ Hs].
  - reflexivity.
  - vm_compute in Hs. discriminate Hs.
Qed.

(** C10, amended.  A toggle of a pressed control whose write the store
    accepts returns with the string "false" stored under the preference's
    key; no later event removes a key that is stored, and restoration leaves
    the store as it is, so from then on the value is never absent; and a
    restoration that finds "false" stored, on a page served with the
    preference off, ends with the preference OFF.  When the store refuses
    the write, the toggle throws and the key holds what it held: a toggle
    never removes a key. *)
Theorem off_transition_stores_false :
  (∀ p, pressed "high-contrast" p →
        storeAccepts p (localStorage p) "highContrast" "false" = true →
        ∃ p1, toggleHighContrast p = Returned p1 ∧
              getItem "highContrast" p1 = Some "false" ∧
              ∀ sched, is_Some (getItem "highContrast" (run sched p1))) ∧
  (∀ p, pressed "font-size" p →
        storeAccepts p (localStorage p) "largeText" "false" = true →
        ∃ p1, toggleFontSize p = Returned p1 ∧
              getItem "largeText" p1 = Some "false" ∧
              ∀ sched, is_Some (getItem "largeText" (run sched p1))) ∧
  (∀ p, localStorage (page_of (initAccessibilityFeatures p)) = localStorage p) ∧
  (∀ p, is_Some (getElementById "high-contrast" p) →
        is_Some (getElementById "font-size" p) →
        servedOff "high-contrast" "high-contrast" p →
        getItem "highContrast" p = Some "false" →
        ∃ p', initAccessibilityFeatures p = Returned p' ∧
              ¬ hasMarker "high-contrast" p' ∧ ¬ pressed "high-contrast" p' ∧
              getItem "highContrast" p' = Some "false") ∧
  (∀ p, is_Some (getElementById "high-contrast" p) →
        is_Some (getElementById "font-size" p) →
        servedOff "large-text" "font-size" p →
        getItem "largeText" p = Some "false" →
        ∃ p', initAccessibilityFeatures p = Returned p' ∧
              ¬ hasMarker "large-text" p' ∧ ¬ pressed "font-size" p' ∧
              getItem "largeText" p' = Some "false") ∧
  (∀ p, pressed "high-contrast" p →
        storeAccepts p (localStorage p) "highContrast" "false" = false →
        ∃ p1, toggleHighContrast p = Threw p1 ∧
              localStorage p1 = localStorage p) ∧
  (∀ p, pressed "font-size" p →
        storeAccepts p (localStorage p) "largeText" "false" = false →
        ∃ p1, toggleFontSize p = Threw p1 ∧
              localStorage p1 = localStorage p) ∧
  (∀ p k sched, is_Some (getItem k p) → is_Some (getItem k (run sched p))).
Proof.
  split_and!.
  - intros p Hon Hacc. exists (turnedOff "high-contrast" "high-contrast" "highContrast"
                                 "High contrast mode turned off" p).
    rewrite toggleHighContrast_controller.
    split; [by rewrite toggle_when_on, Hacc |].
    assert (Hs : getItem "highContrast"
                   (turnedOff "high-contrast" "high-contrast" "highContrast"
                      "High contrast mode turned off" p) = Some "false")
      by apply lookup_insert_eq.
    split; [done |]. intros sched. apply run_keeps_keys. by rewrite Hs.
  - intros p Hon Hacc. exists (turnedOff "font-size" "large-text" "largeText"
                                 "Large text mode turned off" p).
    rewrite toggleFontSize_controller.
    split; [by rewrite toggle_when_on, Hacc |].
    assert (Hs : getItem "largeText"
                   (turnedOff "font-size" "large-text" "largeText"
                      "Large text mode turned off" p) = Some "false")
      by apply lookup_insert_eq.
    split; [done |]. intros sched. apply run_keeps_keys. by rewrite Hs.
  - apply initAccessibilityFeatures_localStorage.
  - intros p Hhc Hfs [Hm Hp] Hst.
    destruct (initAccessibilityFeatures_spec p Hhc Hfs)
      as (p' & Hret & Hsto & Hcl & Hpr1 & _).
    exists p'. split; [done |].
    assert (Hoff : ¬ storedOn "highContrast" p) by (unfold storedOn; by rewrite Hst).
    unfold hasMarker in *. rewrite Hcl, Hpr1. split_and!.
    + intros [[? _] | [[_ ?] | [? | ?]]]; done.
    + tauto.
    + unfold getItem in *. by rewrite Hsto.
  - intros p Hhc Hfs [Hm Hp] Hst.
    destruct (initAccessibilityFeatures_spec p Hhc Hfs)
      as (p' & Hret & Hsto & Hcl & _ & Hpr2).
    exists p'. split; [done |].
    assert (Hoff : ¬ storedOn "largeText" p) by (unfold storedOn; by rewrite Hst).
    unfold hasMarker in *. rewrite Hcl, Hpr2. split_and!.
    + intros [[_ ?] | [[? _] | [? | ?]]]; done.
    + tauto.
    + unfold getItem in *. by rewrite Hsto.
  - intros p Hon Hacc. exists (switchedOff "high-contrast" "high-contrast"
                                 "High contrast mode turned off" p).
    rewrite toggleHighContrast_controller. by rewrite toggle_when_on, Hacc.
  - intros p Hon Hacc. exists (switchedOff "font-size" "large-text"
                                 "Large text mode turned off" p).
    rewrite toggleFontSize_controller. by rewrite toggle_when_on, Hacc.
  - intros p k sched. apply run_keeps_keys.
Qed.

Lemma off_transition_stores_false_witness :
  (∃ p1, toggleHighContrast
           (setAttributeById "high-contrast" "aria-pressed" "true" samplePage)
         = Returned p1 ∧
         getItem "highContrast" p1 = Some "false" ∧
         ∀ sched, is_Some (getItem "highContrast" (run sched p1))) ∧
  (∃ p', initAccessibilityFeatures (writeItem "highContrast" "false" samplePage)
         = Returned p' ∧
         ¬ hasMarker "high-contrast" p' ∧ ¬ pressed "high-contrast" p' ∧
         getItem "highContrast" p' = Some "false") ∧
  (∃ p1, toggleHighContrast refusingPageOn = Threw p1 ∧
         localStorage p1 = localStorage refusingPageOn).
Proof.
  destruct off_transition_stores_false as (H1 & _ & _ & H4 & _ & H6 & _).
  split_and!.
  - apply H1; reflexivity.
  - apply H4.
    + eexists; reflexivity.
    + eexists; reflexivity.
    + apply (bool_decide_unpack _). by vm_compute.
    + reflexivity.
  - apply H6; reflexivity.
Defined.

(** ** C8: the debounced resize listener *)

Lemma NoDup_tid_inj (l : list Timer) x y :
  NoDup (tid <$> l) → x ∈ l → y ∈ l → tid x = tid y → x = y.
Proof.
  induction l as [| z l IH]; intros Hnd Hx Hy Heq; [by apply elem_of_nil in Hx |].
  rewrite fmap_cons in Hnd. apply NoDup_cons in Hnd as [Hz Hnd].
  apply elem_of_cons in Hx as [-> | Hx]; apply elem_of_cons in Hy as [-> | Hy];
    try done.
  - exfalso. apply Hz. rewrite Heq. by apply list_elem_of_fmap_2.
  - exfalso. apply Hz. rewrite <- Heq. by apply list_elem_of_fmap_2.
  - by apply IH.
Qed.

(** Well-formedness only looks at the queue, the handle counter and the
    handle kept by [debounce]. *)
Lemma timers_wf_fields p q :
  timers q = timers p → nextTimer q = nextTimer p → timeout q = timeout p →
  timers_wf p → timers_wf q.
Proof. unfold timers_wf. by intros -> -> ->. Qed.

Lemma fire_wf y rest p :
  timers_wf p → pick_earliest (timers p) = Some (y, rest) →
  timers_wf (fire y rest p).
Proof.
  intros (Hnd & Hlt & Hto & Hres) Hp.
  destruct (fire_fields y rest p) as (_ & _ & _ & _ & Hn & Ht & Hr & _).
  unfold timers_wf. rewrite Hn, Ht, Hr.
  assert (Hsub : ∀ tm, tm ∈ rest → tm ∈ timers p).
  { intros tm Hin. apply (pick_earliest_elem _ _ _ tm Hp). by right. }
  split_and!; [| by auto | done | by auto].
  apply pick_earliest_Permutation in Hp. rewrite Hp, fmap_cons in Hnd.
  by apply NoDup_cons in Hnd as [_ ?].
Qed.

Lemma run_timers_wf fuel t p : timers_wf p → timers_wf (run_timers fuel t p).
Proof.
  revert p. induction fuel as [| fuel IH]; intros p Hwf; [done |]. simpl.
  destruct (pick_earliest (timers p)) as [[y rest] |] eqn:Hp; [| done].
  destruct (due y <=? t); [| done]. apply IH. by apply fire_wf.
Qed.

Lemma advance_to_wf t p : timers_wf p → timers_wf (advance_to t p).
Proof.
  intros Hwf. apply (timers_wf_fields (run_timers (length (timers p)) t p));
    [done | done | done |]. by apply run_timers_wf.
Qed.

Lemma announce_wf msg p : timers_wf p → timers_wf (announceToScreenReader msg p).
Proof.
  intros (Hnd & Hlt & Hto & Hres).
  destruct (announce_fields msg p) as (_ & Ht & Hn & _ & Htm & _).
  unfold timers_wf. rewrite Ht, Hn, Htm. split_and!.
  - rewrite fmap_app. apply NoDup_app. split_and!; [done | | apply NoDup_singleton].
    intros i (tm & -> & Hin)%list_elem_of_fmap Hi. simpl in Hi.
    apply list_elem_of_singleton in Hi. specialize (Hlt tm Hin). lia.
  - intros tm [Hin | ->%list_elem_of_singleton]%elem_of_app; simpl; [| lia].
    specialize (Hlt tm Hin). lia.
  - intros h Hh. specialize (Hto h Hh). lia.
  - intros tm [Hin | ->%list_elem_of_singleton]%elem_of_app; [by apply Hres |].
    simpl. split; [done |]. intros Hh. specialize (Hto _ Hh). lia.
Qed.

Lemma debounced_fields w p :
  timers (debounced w p) =
    timers (clearTimeout (timeout p) p)
      ++ [mkTimer (nextTimer p) (now p + w) RunResizeHandler] ∧
  nextTimer (debounced w p) = S (nextTimer p) ∧
  timeout (debounced w p) = Some (nextTimer p) ∧
  now (debounced w p) = now p ∧
  resizeCalls (debounced w p) = resizeCalls p ∧
  liveRegion (debounced w p) = liveRegion p.
Proof. unfold debounced. by destruct (timeout p). Qed.

(** [clearTimeout(timeout)] leaves no resize timer behind. *)
Lemma clearTimeout_timers p :
  timers_wf p →
  timers (clearTimeout (timeout p) p) `sublist_of` timers p ∧
  ∀ tm, tm ∈ timers (clearTimeout (timeout p) p) → task tm = ClearLiveRegion.
Proof.
  intros (Hnd & Hlt & Hto & Hres). destruct (timeout p) as [h |] eqn:Hh; simpl.
  - split; [apply sublist_filter |].
    intros tm [Hne Hin]%list_elem_of_filter.
    destruct (task tm) eqn:Htk; [done |].
    apply Hres in Htk; [| done]. congruence.
  - split; [done |]. intros tm Hin.
    destruct (task tm) eqn:Htk; [done |].
    apply Hres in Htk; [| done]. congruence.
Qed.

(** After a call of the debounced function exactly its own timer is the
    pending resize timer. *)
Lemma debounced_spec w p :
  timers_wf p →
  timers_wf (debounced w p) ∧
  mkTimer (nextTimer p) (now p + w) RunResizeHandler ∈ timers (debounced w p) ∧
  ∀ tm, tm ∈ timers (debounced w p) → task tm = RunResizeHandler →
        due tm = now p + w.
Proof.
  intros Hwf. destruct (clearTimeout_timers p Hwf) as [Hsub Hclr].
  destruct Hwf as (Hnd & Hlt & Hto & Hres).
  destruct (debounced_fields w p) as (Ht & Hn & Htm & _).
  assert (Hin : ∀ tm, tm ∈ timers (clearTimeout (timeout p) p) → tid tm < nextTimer p).
  { intros tm Htm'. apply Hlt. by eapply elem_of_sublist. }
  split_and!.
  - unfold timers_wf. rewrite Ht, Hn, Htm. split_and!.
    + rewrite fmap_app. apply NoDup_app. split_and!; [| | apply NoDup_singleton].
      * eapply sublist_NoDup; [exact Hnd |]. by apply fmap_sublist.
      * intros i (tm & -> & Hi)%list_elem_of_fmap Hi'. simpl in Hi'.
        apply list_elem_of_singleton in Hi'. specialize (Hin tm Hi). lia.
    + intros tm [Hi | ->%list_elem_of_singleton]%elem_of_app; simpl; [| lia].
      specialize (Hin tm Hi). lia.
    + intros h [= <-]. lia.
    + intros tm [Hi | ->%list_elem_of_singleton]%elem_of_app; [| done].
      rewrite (Hclr tm Hi). split; [done |].
      intros [= E]. specialize (Hin tm Hi). lia.
  - rewrite Ht. apply elem_of_app. right. by apply list_elem_of_singleton.
  - intros tm Hi Htk. rewrite Ht in Hi.
    apply elem_of_app in Hi as [Hi | ->%list_elem_of_singleton]; [| done].
    rewrite (Hclr tm Hi) in Htk. done.
Qed.

(** Once the pending resize timer is due, the loop calls the handler, once,
    at the timer's due time. *)
Lemma run_timers_fires_resize T fuel p X :
  length (timers p) ≤ fuel → timers_wf p →
  X ∈ timers p → task X = RunResizeHandler → due X ≤ T → now p ≤ due X →
  resizeCalls (run_timers fuel T p) = resizeCalls p ++ [due X].
Proof.
  revert p. induction fuel as [| fuel IH]; intros p Hlen Hwf Hin Htk Hdue Hnow.
  { destruct (timers p); [by apply elem_of_nil in Hin | simpl in Hlen; lia]. }
  simpl. destruct (pick_earliest (timers p)) as [[y rest] |] eqn:Hp.
  2:{ apply pick_earliest_None in Hp. rewrite Hp in Hin. by apply elem_of_nil in Hin. }
  pose proof (pick_earliest_min _ _ _ Hp X Hin) as Hmin.
  rewrite (proj2 (Nat.leb_le _ _)) by lia.
  pose proof (fire_wf y rest p Hwf Hp) as Hwf1.
  destruct (fire_fields y rest p) as (_ & _ & _ & _ & _ & _ & Hr & Hn & _ & Hc).
  assert (Hy : y ∈ timers p) by (apply (pick_earliest_elem _ _ _ y Hp); by left).
  destruct Hwf as (Hnd & Hlt & Hto & Hres).
  destruct (decide (task y = RunResizeHandler)) as [Hyk | Hyk].
  - assert (y = X) as ->.
    { apply (NoDup_tid_inj (timers p)); [done | done | done |].
      apply (Hres y Hy) in Hyk. apply (Hres X Hin) in Htk. congruence. }
    destruct (run_timers_quiet RunResizeHandler fuel T (fire X rest p)) as [_ Hsame];
      [| rewrite Hsame by done].
    + intros tm Hi Htm. exfalso. rewrite Hr in Hi.
      assert (Htp : tm ∈ timers p) by (apply (pick_earliest_elem _ _ _ tm Hp); by right).
      assert (tid tm = tid X) as Hid.
      { apply (Hres tm Htp) in Htm. apply (Hres X Hin) in Htk. congruence. }
      apply pick_earliest_Permutation in Hp. rewrite Hp, fmap_cons in Hnd.
      apply NoDup_cons in Hnd as [Hnot _]. apply Hnot. rewrite <- Hid.
      by apply list_elem_of_fmap_2.
    + rewrite Hc. f_equal. f_equal. lia.
  - rewrite (IH (fire y rest p)); [| | done | | done | done |].
    + by rewrite Hc.
    + rewrite Hr. apply pick_earliest_length in Hp. lia.
    + rewrite Hr. apply (pick_earliest_elem _ _ _ X Hp) in Hin as [-> | Hin]; done.
    + rewrite Hn. lia.
Qed.

(** One resize event, arriving while no resize timer is due: the handler is
    not called, and the one pending resize timer is due 250 ms later. *)
Lemma resize_step t p :
  timers_wf p → now p ≤ t → resize_quiet t p →
  timers_wf (onResize (advance_to t p)) ∧
  now (onResize (advance_to t p)) = t ∧
  resizeCalls (onResize (advance_to t p)) = resizeCalls p ∧
  (∃ X, X ∈ timers (onResize (advance_to t p)) ∧ task X = RunResizeHandler) ∧
  (∀ tm, tm ∈ timers (onResize (advance_to t p)) → task tm = RunResizeHandler →
         due tm = t + 250).
Proof.
  intros Hwf Hnow Hq. unfold onResize.
  pose proof (advance_to_wf t p Hwf) as Hwf1.
  assert (Hn1 : now (advance_to t p) = t) by (rewrite advance_to_now; lia).
  assert (Hc1 : resizeCalls (advance_to t p) = resizeCalls p).
  { change (resizeCalls (advance_to t p))
      with (resizeCalls (run_timers (length (timers p)) t p)).
    by apply (run_timers_quiet RunResizeHandler _ t p Hq). }
  destruct (debounced_spec 250 (advance_to t p) Hwf1) as (Hwf2 & HX & Hdue).
  destruct (debounced_fields 250 (advance_to t p)) as (_ & _ & _ & Hn2 & Hc2 & _).
  rewrite Hn1 in *. split_and!; try done.
  - congruence.
  - by eexists.
Qed.

(** The state after a burst: nothing called yet, one resize timer pending,
    due 250 ms after the last event. *)
Lemma resizeBurst_spec ts : ∀ t p,
  timers_wf p → now p ≤ t → resize_quiet t p → burst_from 250 t ts →
  timers_wf (resizeBurst (t :: ts) p) ∧
  now (resizeBurst (t :: ts) p) = default t (last ts) ∧
  resizeCalls (resizeBurst (t :: ts) p) = resizeCalls p ∧
  (∃ X, X ∈ timers (resizeBurst (t :: ts) p) ∧ task X = RunResizeHandler) ∧
  (∀ tm, tm ∈ timers (resizeBurst (t :: ts) p) → task tm = RunResizeHandler →
         due tm = default t (last ts) + 250).
Proof.
  induction ts as [| t' ts IH]; intros t p Hwf Hnow Hq Hb.
  - by apply resize_step.
  - destruct Hb as (Hle & Hlt & Hb).
    destruct (resize_step t p Hwf Hnow Hq) as (Hwf1 & Hn1 & Hc1 & _ & Hdue1).
    change (resizeBurst (t :: t' :: ts) p)
      with (resizeBurst (t' :: ts) (onResize (advance_to t p))).
    assert (Hlast : default t (last (t' :: ts)) = default t' (last ts)).
    { rewrite last_cons. by destruct (last ts). }
    rewrite Hlast, <- Hc1. apply IH; [done | lia | | done].
    intros tm Hin Htk. rewrite (Hdue1 tm Hin Htk). lia.
Qed.

(** Every function of the script keeps the timer queue well-formed. *)
Lemma toggle_wf id cls key onMsg offMsg p :
  timers_wf p → timers_wf (page_of (togglePreference id cls key onMsg offMsg p)).
Proof.
  intros Hwf. unfold togglePreference.
  destruct (getElementById id p) as [btn |]; [| done].
  match goal with |- timers_wf (page_of (setItem ?k ?v ?q)) =>
    destruct (setItem_frame k v q) as (_ & _ & _ & _ & _ & Hn & Ht & Hto & _);
    apply (timers_wf_fields q); [done | done | done |]
  end.
  case_bool_decide.
  - apply (announce_wf offMsg
             (setAttributeById id "aria-pressed" "false" (classList_remove cls p))), Hwf.
  - apply (announce_wf onMsg
             (setAttributeById id "aria-pressed" "true" (classList_add cls p))), Hwf.
Qed.

Lemma handle_wf ev p : timers_wf p → timers_wf (page_of (handle ev p)).
Proof.
  intros Hwf.
  destruct ev as [| key | | key |]; simpl;
    unfold highContrastKeydown, fontSizeKeydown;
    try (destruct (bool_decide (key = "Enter") || bool_decide (key = " ")); [| done]);
    rewrite ?toggleHighContrast_controller, ?toggleFontSize_controller;
    try by apply toggle_wf.
  by apply debounced_spec.
Qed.

Lemma run_wf sched p : timers_wf p → timers_wf (run sched p).
Proof.
  revert p. induction sched as [| [t ev] sched IH]; intros p Hwf; [done |].
  simpl. apply IH. unfold step. simpl. by apply handle_wf, advance_to_wf.
Qed.

Lemma samplePage_wf : timers_wf samplePage.
Proof.
  split_and!.
  - constructor.
  - intros tm Hin. by apply elem_of_nil in Hin.
  - done.
  - intros tm Hin. by apply elem_of_nil in Hin.
Qed.

(** C8.  Take a page whose timer queue is well-formed (as it is from the
    load on) and a burst of resize events at times [t1 :: ts] that do not go
    back and lie less than 250 ms apart, arriving while no earlier resize
    timer is due.  During the burst the resize handler is not called; after
    it, up to any time [T], it has been called at most once: not at all
    while [T] is less than 250 ms after the last event, and exactly once, at
    250 ms after the last event, from then on. *)
Theorem debounced_resize_runs_once (p : Page) (t1 : nat) (ts : list nat)
    (Hwf : timers_wf p) (Hnow : now p ≤ t1) (Hq : resize_quiet t1 p)
    (Hb : burst_from 250 t1 ts) :
  resizeCalls (resizeBurst (t1 :: ts) p) = resizeCalls p ∧
  ∀ T, default t1 (last ts) ≤ T →
       resizeCalls (advance_to T (resizeBurst (t1 :: ts) p)) =
       resizeCalls p ++
         (if decide (default t1 (last ts) + 250 ≤ T)
          then [default t1 (last ts) + 250] else []).
Proof.
  destruct (resizeBurst_spec ts t1 p Hwf Hnow Hq Hb)
    as (Hwf' & Hn & Hc & (X & HX & HXk) & Hdue).
  split; [done |]. intros T HT.
  change (resizeCalls (advance_to T (resizeBurst (t1 :: ts) p)))
    with (resizeCalls (run_timers (length (timers (resizeBurst (t1 :: ts) p))) T
                         (resizeBurst (t1 :: ts) p))).
  case_decide as Hlate.
  - rewrite (run_timers_fires_resize T _ _ X); try done.
    + by rewrite Hc, (Hdue X HX HXk).
    + rewrite (Hdue X HX HXk). lia.
    + rewrite (Hdue X HX HXk), Hn. lia.
  - destruct (run_timers_quiet RunResizeHandler
                (length (timers (resizeBurst (t1 :: ts) p))) T
                (resizeBurst (t1 :: ts) p)) as [_ Hsame]; [| rewrite Hsame by done].
    + intros tm Hin Htk. rewrite (Hdue tm Hin Htk). lia.
    + by rewrite Hc, app_nil_r.
Qed.

Lemma debounced_resize_runs_once_witness :
  resizeCalls (resizeBurst [0; 10; 20; 30; 40; 50; 60; 70; 80; 90] samplePage) = [] ∧
  resizeCalls (advance_to 339
                 (resizeBurst [0; 10; 20; 30; 40; 50; 60; 70; 80; 90] samplePage)) = [] ∧
  resizeCalls (advance_to 5000
                 (resizeBurst [0; 10; 20; 30; 40; 50; 60; 70; 80; 90] samplePage)) = [340].
Proof.
  assert (Hnow : now samplePage ≤ 0) by (simpl; lia).
  assert (Hq : resize_quiet 0 samplePage).
  { intros tm Hin. by apply elem_of_nil in Hin. }
  assert (Hb : burst_from 250 0 [10; 20; 30; 40; 50; 60; 70; 80; 90])
    by (simpl; lia).
  destruct (debounced_resize_runs_once samplePage 0 [10; 20; 30; 40; 50; 60; 70; 80; 90]
              samplePage_wf Hnow Hq Hb) as [H1 H2].
  split_and!.
  - exact H1.
  - apply (H2 339). simpl. lia.
  - apply (H2 5000). simpl. lia.
Defined.

(** * Sessions: the handlers in sequence *)

Lemma onResize_frame p :
  classList (onResize p) = classList p ∧
  elements (onResize p) = elements p ∧
  images (onResize p) = images p ∧
  localStorage (onResize p) = localStorage p ∧
  liveRegion (onResize p) = liveRegion p ∧
  now (onResize p) = now p ∧
  resizeCalls (onResize p) = resizeCalls p.
Proof. unfold onResize, debounced. by destruct (timeout p). Qed.


Lemma toggle_keeps_elements id cls key onMsg offMsg i p :
  is_Some (getElementById i (page_of (togglePreference id cls key onMsg offMsg p)))
  ↔ is_Some (getElementById i p).
Proof.
  unfold togglePreference. destruct (getElementById id p) as [btn |]; [| done].
  match goal with |- context [page_of (setItem ?k ?v ?q)] =>
    destruct (setItem_frame k v q) as (_ & _ & He & _)
  end.
  unfold getElementById at 1. rewrite He. case_bool_decide.
  - exact (getElementById_set id i "aria-pressed" "false" (classList_remove cls p)).
  - exact (getElementById_set id i "aria-pressed" "true" (classList_add cls p)).
Qed.

(** No handler and no timer changes what the store accepts. *)
Lemma toggle_storeAccepts id cls key onMsg offMsg p :
  storeAccepts (page_of (togglePreference id cls key onMsg offMsg p))
  = storeAccepts p.
Proof.
  unfold togglePreference. destruct (getElementById id p) as [btn |]; [| done].
  match goal with |- context [page_of (setItem ?k ?v ?q)] =>
    destruct (setItem_frame k v q) as (_ & _ & _ & _ & _ & _ & _ & _ & _ & ->)
  end.
  by case_bool_decide.
Qed.

Lemma handle_storeAccepts ev p :
  storeAccepts (page_of (handle ev p)) = storeAccepts p.
Proof.
  destruct ev as [| key | | key |]; simpl;
    unfold highContrastKeydown, fontSizeKeydown;
    try (destruct (bool_decide (key = "Enter") || bool_decide (key = " "));
         [| done]);
    rewrite ?toggleHighContrast_controller, ?toggleFontSize_controller;
    try apply toggle_storeAccepts.
  unfold onResize, debounced. by destruct (timeout p).
Qed.

Lemma run_timers_storeAccepts fuel t p :
  storeAccepts (run_timers fuel t p) = storeAccepts p.
Proof.
  revert p. induction fuel as [| fuel IH]; intros p; [done |]. simpl.
  destruct (pick_earliest (timers p)) as [[tm rest] |]; [| done].
  destruct (due tm <=? t); [| done]. rewrite IH. unfold fire.
  by destruct (task tm).
Qed.

Lemma run_storeAccepts sched : ∀ p, storeAccepts (run sched p) = storeAccepts p.
Proof.
  induction sched as [| [t ev] sched IH]; intros p; [done |]. simpl.
  rewrite IH. unfold step. simpl. rewrite handle_storeAccepts.
  unfold advance_to. simpl. apply run_timers_storeAccepts.
Qed.





















Lemma toggle_store id cls key onMsg offMsg k p :
  getItem k (page_of (togglePreference id cls key onMsg offMsg p)) = getItem k p ∨
  (k = key ∧
   (getItem k (page_of (togglePreference id cls key onMsg offMsg p)) = Some "true" ∨
    getItem k (page_of (togglePreference id cls key onMsg offMsg p)) = Some "false")).
Proof.
  unfold togglePreference. destruct (getElementById id p) as [btn |]; [| by left].
  match goal with |- context [setItem ?a ?v ?q] =>
    destruct (setItem_store a v q) as [[-> _] | [-> _]]
  end.
  - simpl. unfold getItem. simpl. destruct (decide (k = key)) as [-> | Hne].
    + right. split; [done |]. rewrite lookup_insert_eq.
      case_bool_decide; simpl; auto.
    + left. rewrite lookup_insert_ne by done. by case_bool_decide.
  - left. simpl. unfold getItem. by case_bool_decide.
Qed.

Lemma handle_store ev k p :
  getItem k (page_of (handle ev p)) = getItem k p ∨
  ((k = "highContrast" ∨ k = "largeText") ∧
   (getItem k (page_of (handle ev p)) = Some "true" ∨
    getItem k (page_of (handle ev p)) = Some "false")).
Proof.
  destruct ev as [| key | | key |]; simpl;
    unfold highContrastKeydown, fontSizeKeydown;
    try (destruct (bool_decide (key = "Enter") || bool_decide (key = " "));
         [| by left]);
    rewrite ?toggleHighContrast_controller, ?toggleFontSize_controller.
  - destruct (toggle_store "high-contrast" "high-contrast" "highContrast"
                "High contrast mode turned on" "High contrast mode turned off" k p)
      as [? | [-> ?]]; auto.
  - destruct (toggle_store "high-contrast" "high-contrast" "highContrast"
                "High contrast mode turned on" "High contrast mode turned off" k p)
      as [? | [-> ?]]; auto.
  - destruct (toggle_store "font-size" "large-text" "largeText"
                "Large text mode turned on" "Large text mode turned off" k p)
      as [? | [-> ?]]; auto.
  - destruct (toggle_store "font-size" "large-text" "largeText"
                "Large text mode turned on" "Large text mode turned off" k p)
      as [? | [-> ?]]; auto.
  - left. unfold getItem. by rewrite onResize_localStorage.
Qed.

(** X3.  Whatever events happen, the page writes nothing to the store but
    the strings "true" and "false" under the keys [highContrast] and
    [largeText]: every key either holds what it held before, or is one of
    these two keys and holds one of these two strings. *)
Theorem session_writes_only_flags (sched : list (nat * Event)) (k : string) :
  ∀ p, getItem k (run sched p) = getItem k p ∨
       ((k = "highContrast" ∨ k = "largeText") ∧
        (getItem k (run sched p) = Some "true" ∨
         getItem k (run sched p) = Some "false")).
Proof.
  induction sched as [| [t ev] sched IH]; intros p; [by left |]. simpl.
  destruct (IH (step p (t, ev))) as [Hsame | Hw]; [| by right].
  rewrite Hsame. unfold step. simpl.
  destruct (handle_store ev k (advance_to t p)) as [-> | Hw]; [| by right].
  left. unfold getItem.
  by destruct (advance_to_frame t p) as (_ & _ & _ & -> & _).
Qed.

(** ** Counting activations *)

Lemma pressed_elements id p q :
  elements q = elements p → (pressed id q ↔ pressed id p).
Proof. intros He. unfold pressed, ariaPressed, getElementById. by rewrite He. Qed.

Lemma toggle_flips id cls key onMsg offMsg p :
  is_Some (getElementById id p) →
  bool_decide (pressed id (page_of (togglePreference id cls key onMsg offMsg p)))
  = negb (bool_decide (pressed id p)).
Proof.
  intros Hb.
  destruct (toggle_cases id cls key onMsg offMsg p Hb)
    as [(Hp & _ & ->) | [(Hp & _ & ->) | [(Hp & _ & ->) | (Hp & _ & ->)]]]; simpl.
  - destruct (turnedOn_allOn id cls key onMsg p Hb) as (_ & Hp' & _).
    by rewrite bool_decide_eq_true_2, bool_decide_eq_false_2.
  - destruct (switchedOn_state id cls onMsg p Hb) as (_ & Hp' & _).
    by rewrite (bool_decide_eq_true_2 _ Hp'), bool_decide_eq_false_2.
  - destruct (turnedOff_allOff id cls key offMsg p Hb) as (_ & Hnp & _).
    by rewrite bool_decide_eq_false_2, bool_decide_eq_true_2.
  - destruct (switchedOff_state id cls offMsg p Hb) as (_ & Ha & _).
    rewrite (bool_decide_eq_true_2 _ Hp). apply bool_decide_eq_false_2.
    unfold pressed. by rewrite Ha.
Qed.

Lemma toggle_other_pressed id cls key onMsg offMsg i p :
  i ≠ id →
  (pressed i (page_of (togglePreference id cls key onMsg offMsg p)) ↔ pressed i p).
Proof.
  intros Hne. unfold togglePreference.
  destruct (getElementById id p) as [btn |]; [| done].
  match goal with |- context [page_of (setItem ?k ?v ?q)] =>
    destruct (setItem_frame k v q) as (_ & _ & He & _)
  end.
  rewrite (pressed_elements i _ _ He). unfold pressed. case_bool_decide.
  - exact (eq_ind_r (λ o, o = Some "true" ↔ ariaPressed i p = Some "true")
             (iff_refl _)
             (ariaPressed_set_other id i "false" (classList_remove cls p) Hne)).
  - exact (eq_ind_r (λ o, o = Some "true" ↔ ariaPressed i p = Some "true")
             (iff_refl _)
             (ariaPressed_set_other id i "true" (classList_add cls p) Hne)).
Qed.

Lemma xorb_false_r' b : xorb b false = b.
Proof. by destruct b. Qed.

Lemma handle_pressed_hc ev p :
  is_Some (getElementById "high-contrast" p) →
  is_Some (getElementById "high-contrast" (page_of (handle ev p))) ∧
  bool_decide (pressed "high-contrast" (page_of (handle ev p)))
  = xorb (bool_decide (pressed "high-contrast" p)) (activatesHighContrast ev).
Proof.
  intros Hb. destruct ev as [| key | | key |]; simpl;
    unfold highContrastKeydown, fontSizeKeydown;
    try (destruct (bool_decide (key = "Enter") || bool_decide (key = " "));
         simpl; [| by rewrite xorb_false_r']);
    rewrite ?toggleHighContrast_controller, ?toggleFontSize_controller.
  - split; [by apply toggle_keeps_elements |].
    rewrite toggle_flips by done. by destruct (bool_decide _).
  - split; [by apply toggle_keeps_elements |].
    rewrite toggle_flips by done. by destruct (bool_decide _).
  - split; [by apply toggle_keeps_elements |]. rewrite xorb_false_r'.
    apply bool_decide_ext. by apply toggle_other_pressed.
  - split; [by apply toggle_keeps_elements |]. rewrite xorb_false_r'.
    apply bool_decide_ext. by apply toggle_other_pressed.
  - destruct (onResize_frame p) as (_ & He & _).
    split; [unfold getElementById; by rewrite He |]. rewrite xorb_false_r'.
    apply bool_decide_ext. by apply pressed_elements.
Qed.

Lemma handle_pressed_fs ev p :
  is_Some (getElementById "font-size" p) →
  is_Some (getElementById "font-size" (page_of (handle ev p))) ∧
  bool_decide (pressed "font-size" (page_of (handle ev p)))
  = xorb (bool_decide (pressed "font-size" p)) (activatesFontSize ev).
Proof.
  intros Hb. destruct ev as [| key | | key |]; simpl;
    unfold highContrastKeydown, fontSizeKeydown;
    try (destruct (bool_decide (key = "Enter") || bool_decide (key = " "));
         simpl; [| by rewrite xorb_false_r']);
    rewrite ?toggleHighContrast_controller, ?toggleFontSize_controller.
  - split; [by apply toggle_keeps_elements |]. rewrite xorb_false_r'.
    apply bool_decide_ext. by apply toggle_other_pressed.
  - split; [by apply toggle_keeps_elements |]. rewrite xorb_false_r'.
    apply bool_decide_ext. by apply toggle_other_pressed.
  - split; [by apply toggle_keeps_elements |].
    rewrite toggle_flips by done. by destruct (bool_decide _).
  - split; [by apply toggle_keeps_elements |].
    rewrite toggle_flips by done. by destruct (bool_decide _).
  - destruct (onResize_frame p) as (_ & He & _).
    split; [unfold getElementById; by rewrite He |]. rewrite xorb_false_r'.
    apply bool_decide_ext. by apply pressed_elements.
Qed.

Lemma odd_step (b : bool) n :
  Nat.odd ((if b then 1 else 0) + n) = xorb b (Nat.odd n).
Proof.
  destruct b; simpl; [| done].
  rewrite Nat.odd_succ, <- Nat.negb_odd. done.
Qed.

Lemma run_pressed_hc sched : ∀ p,
  is_Some (getElementById "high-contrast" p) →
  bool_decide (pressed "high-contrast" (run sched p))
  = xorb (bool_decide (pressed "high-contrast" p))
         (Nat.odd (activations activatesHighContrast sched)).
Proof.
  induction sched as [| [t ev] sched IH]; intros p Hb.
  { simpl. by rewrite xorb_false_r'. }
  simpl. destruct (advance_to_frame t p) as (_ & He & _).
  assert (Hb' : is_Some (getElementById "high-contrast" (advance_to t p)))
    by (unfold getElementById; by rewrite He).
  destruct (handle_pressed_hc ev (advance_to t p) Hb') as [Hb'' Hx].
  rewrite IH by exact Hb''. unfold step. simpl. rewrite Hx.
  rewrite (bool_decide_ext _ _ (pressed_elements "high-contrast" p _ He)).
  rewrite odd_step. by rewrite xorb_assoc.
Qed.

Lemma run_pressed_fs sched : ∀ p,
  is_Some (getElementById "font-size" p) →
  bool_decide (pressed "font-size" (run sched p))
  = xorb (bool_decide (pressed "font-size" p))
         (Nat.odd (activations activatesFontSize sched)).
Proof.
  induction sched as [| [t ev] sched IH]; intros p Hb.
  { simpl. by rewrite xorb_false_r'. }
  simpl. destruct (advance_to_frame t p) as (_ & He & _).
  assert (Hb' : is_Some (getElementById "font-size" (advance_to t p)))
    by (unfold getElementById; by rewrite He).
  destruct (handle_pressed_fs ev (advance_to t p) Hb') as [Hb'' Hx].
  rewrite IH by exact Hb''. unfold step. simpl. rewrite Hx.
  rewrite (bool_decide_ext _ _ (pressed_elements "font-size" p _ He)).
  rewrite odd_step. by rewrite xorb_assoc.
Qed.

(** X4.  Every activation flips, and nothing else does: after any events on
    a page that has the control, the high-contrast control is pressed exactly
    when it was pressed at the start and was activated (clicked, or Enter or
    Space pressed on it) an even number of times, or was not pressed and was
    activated an odd number of times; the same holds for the font-size
    control.  Other keys, the other control, resize events and timers do not
    count. *)
Theorem pressed_follows_parity (sched : list (nat * Event)) (p : Page) :
  (is_Some (getElementById "high-contrast" p) →
   bool_decide (pressed "high-contrast" (run sched p))
   = xorb (bool_decide (pressed "high-contrast" p))
          (Nat.odd (activations activatesHighContrast sched))) ∧
  (is_Some (getElementById "font-size" p) →
   bool_decide (pressed "font-size" (run sched p))
   = xorb (bool_decide (pressed "font-size" p))
          (Nat.odd (activations activatesFontSize sched))).
Proof. split; [apply run_pressed_hc | apply run_pressed_fs]. Qed.

Lemma pressed_follows_parity_witness :
  pressed "high-contrast"
    (run [(5, ClickHighContrast); (9, KeydownHighContrast "a"); (20, Resize);
          (30, KeydownHighContrast " "); (31, ClickFontSize);
          (40, KeydownHighContrast "Enter")] samplePage).
Proof.
  destruct (pressed_follows_parity
              [(5, ClickHighContrast); (9, KeydownHighContrast "a"); (20, Resize);
               (30, KeydownHighContrast " "); (31, ClickFontSize);
               (40, KeydownHighContrast "Enter")] samplePage) as [H _].
  apply (bool_decide_unpack _). rewrite H; [by vm_compute | eexists; reflexivity].
Defined.

(** ** Restoration at its edges *)

(** X5.  Restoration does not guard against a missing control.  With "true"
    stored under [highContrast] and no high-contrast control, it throws right
    after adding the high-contrast marker: the large-text preference is not
    restored and [js-focus-visible] is not added.  With the high-contrast
    part passing (nothing to restore, or its control there), "true" under
    [largeText] and no font-size control, it throws after adding the
    large-text marker, [js-focus-visible] again missing.  With neither value
    stored as "true" the controls are never looked up, and restoration
    returns having added [js-focus-visible] only. *)
Theorem restoration_without_controls (p : Page) :
  (getItem "highContrast" p = Some "true" →
   getElementById "high-contrast" p = None →
   initAccessibilityFeatures p = Threw (classList_add "high-contrast" p)) ∧
  (getItem "highContrast" p ≠ Some "true" →
   getItem "largeText" p = Some "true" →
   getElementById "font-size" p = None →
   initAccessibilityFeatures p = Threw (classList_add "large-text" p)) ∧
  (getItem "highContrast" p = Some "true" →
   is_Some (getElementById "high-contrast" p) →
   getItem "largeText" p = Some "true" →
   getElementById "font-size" p = None →
   initAccessibilityFeatures p =
   Threw (classList_add "large-text"
            (setAttributeById "high-contrast" "aria-pressed" "true"
               (classList_add "high-contrast" p)))) ∧
  (getItem "highContrast" p ≠ Some "true" →
   getItem "largeText" p ≠ Some "true" →
   initAccessibilityFeatures p = Returned (classList_add "js-focus-visible" p)).
Proof.
  unfold initAccessibilityFeatures, restorePreference, getItem, getElementById.
  split_and!.
  - intros Hs Hn. rewrite bool_decide_eq_true_2 by done. simpl. by rewrite Hn.
  - intros Hs1 Hs2 Hn. rewrite bool_decide_eq_false_2 by done. simpl.
    rewrite bool_decide_eq_true_2 by done. simpl. by rewrite Hn.
  - intros Hs1 [e He] Hs2 Hn. rewrite bool_decide_eq_true_2 by done. simpl.
    rewrite He. simpl. rewrite bool_decide_eq_true_2 by done. simpl.
    rewrite lookup_alter_ne by done. by rewrite Hn.
  - intros Hs1 Hs2. rewrite bool_decide_eq_false_2 by done. simpl.
    by rewrite bool_decide_eq_false_2.
Qed.

Lemma restoration_without_controls_witness :
  initAccessibilityFeatures
    (writeItem "largeText" "true"
       (writeItem "highContrast" "true" (set_elements ∅ samplePage)))
  = Threw (classList_add "high-contrast"
             (writeItem "largeText" "true"
                (writeItem "highContrast" "true" (set_elements ∅ samplePage)))) ∧
  initAccessibilityFeatures (set_elements ∅ samplePage)
  = Returned (classList_add "js-focus-visible" (set_elements ∅ samplePage)).
Proof.
  split.
  - apply (restoration_without_controls
             (writeItem "largeText" "true"
                (writeItem "highContrast" "true" (set_elements ∅ samplePage))));
      reflexivity.
  - apply (restoration_without_controls (set_elements ∅ samplePage)); by vm_compute.
Defined.

Lemma restorePreference_quiet key cls id p :
  set_classList (classList p)
    (set_elements (elements p) (page_of (restorePreference key cls id p))) = p ∧
  (∀ x, x ∈ classList p → x ∈ classList (page_of (restorePreference key cls id p))) ∧
  (∀ i k, (i ≠ id ∨ k ≠ "aria-pressed") →
          (getElementById i (page_of (restorePreference key cls id p))
             ≫= λ e, getAttribute e k)
          = (getElementById i p ≫= λ e, getAttribute e k)).
Proof.
  unfold restorePreference. case_bool_decide as Hs.
  2:{ simpl. split_and!; [by destruct p | done | done]. }
  destruct (getElementById id (classList_add cls p)) as [e |] eqn:He; simpl.
  - split_and!.
    + by destruct p.
    + intros x Hx.
      change (x ∈ classList (classList_add cls p)). apply classList_add_elem. by right.
    + intros i k Hik. unfold getElementById. simpl.
      destruct (decide (i = id)) as [-> | Hne].
      * destruct Hik as [? | Hk]; [done |]. rewrite lookup_alter_eq.
        destruct (elements p !! id); [| done]. simpl. unfold getAttribute. simpl.
        by rewrite lookup_insert_ne.
      * by rewrite lookup_alter_ne.
  - split_and!; [by destruct p | | done].
    intros x Hx. apply classList_add_elem. by right.
Qed.

(** X6.  Restoration is silent and touches nothing but the class list and
    the two aria-pressed attributes, whether it returns or throws: the live
    region, the timers, the store, the images and the clock are as before; no
    class that was on the document is removed; every attribute other than
    aria-pressed of the two controls, and every other element, reads as
    before.  When it returns, [js-focus-visible] is on the document. *)
Theorem restoration_is_quiet (p : Page) :
  set_classList (classList p)
    (set_elements (elements p) (page_of (initAccessibilityFeatures p))) = p ∧
  (∀ x, x ∈ classList p → x ∈ classList (page_of (initAccessibilityFeatures p))) ∧
  (∀ i k, k ≠ "aria-pressed" ∨ (i ≠ "high-contrast" ∧ i ≠ "font-size") →
          (getElementById i (page_of (initAccessibilityFeatures p))
             ≫= λ e, getAttribute e k)
          = (getElementById i p ≫= λ e, getAttribute e k)) ∧
  (∀ p', initAccessibilityFeatures p = Returned p' →
         "js-focus-visible" ∈ classList p').
Proof.
  unfold initAccessibilityFeatures.
  destruct (restorePreference_quiet "highContrast" "high-contrast" "high-contrast" p)
    as (Hf1 & Hc1 & Ha1).
  destruct (restorePreference "highContrast" "high-contrast" "high-contrast" p)
    as [p1 | p1]; simpl in *.
  2:{ split_and!; [done | done | | done].
      intros i k Hik. apply Ha1. tauto. }
  destruct (restorePreference_quiet "largeText" "large-text" "font-size" p1)
    as (Hf2 & Hc2 & Ha2).
  destruct (restorePreference "largeText" "large-text" "font-size" p1)
    as [p2 | p2]; simpl in *.
  - split_and!.
    + clear -Hf1 Hf2. destruct p, p1, p2.
      unfold set_classList, set_elements, classList_add in *. simpl in *.
      injection Hf1 as -> -> -> -> -> -> -> -> ->.
      injection Hf2 as -> -> -> -> -> -> -> -> ->. reflexivity.
    + intros x Hx.
      change (x ∈ classList (classList_add "js-focus-visible" p2)).
      apply classList_add_elem. right. auto.
    + intros i k Hik.
      change (getElementById i (classList_add "js-focus-visible" p2))
        with (getElementById i p2).
      rewrite Ha2 by tauto. apply Ha1. tauto.
    + intros p' [= <-]. apply classList_add_elem. by left.
  - split_and!.
    + clear -Hf1 Hf2. destruct p, p1, p2.
      unfold set_classList, set_elements, classList_add in *. simpl in *.
      injection Hf1 as -> -> -> -> -> -> -> -> ->.
      injection Hf2 as -> -> -> -> -> -> -> -> ->. reflexivity.
    + auto.
    + intros i k Hik. rewrite Ha2 by tauto. apply Ha1. tauto.
    + done.
Qed.

(** ** The debounce over a whole session *)

Lemma advance_idle t p :
  resize_idle p →
  resize_idle (advance_to t p) ∧ resizeCalls (advance_to t p) = resizeCalls p.
Proof.
  intros Hi. split.
  - intros tm Hin. rewrite advance_to_timers in Hin.
    apply run_timers_frame in Hin. by apply Hi.
  - change (resizeCalls (advance_to t p))
      with (resizeCalls (run_timers (length (timers p)) t p)).
    apply (run_timers_quiet RunResizeHandler); [| done].
    intros tm Hin Htk. by destruct (Hi tm Hin).
Qed.

Lemma advance_hold t t' p :
  resize_armed t p → t' < t + 250 →
  resize_armed t (advance_to t' p) ∧
  resizeCalls (advance_to t' p) = resizeCalls p.
Proof.
  intros ((X & HX & HXk) & Hdue & Hnow) Hlt. split; [split_and! |].
  - exists X. split; [| done]. rewrite advance_to_timers.
    apply run_timers_keeps; [done |]. rewrite (Hdue X HX HXk). lia.
  - intros tm Hin Htk. rewrite advance_to_timers in Hin.
    apply run_timers_frame in Hin. by apply Hdue.
  - rewrite advance_to_now. lia.
  - change (resizeCalls (advance_to t' p))
      with (resizeCalls (run_timers (length (timers p)) t' p)).
    apply (run_timers_quiet RunResizeHandler); [| done].
    intros tm Hin Htk. rewrite (Hdue tm Hin Htk). lia.
Qed.

Lemma advance_fire t t' p :
  timers_wf p → resize_armed t p → t + 250 ≤ t' →
  resize_idle (advance_to t' p) ∧
  resizeCalls (advance_to t' p) = resizeCalls p ++ [t + 250].
Proof.
  intros Hwf ((X & HX & HXk) & Hdue & Hnow) Hle. split.
  - intros tm Hin Htk.
    pose proof (advance_to_drains _ _ _ Hin) as Hlate.
    rewrite advance_to_timers in Hin. apply run_timers_frame in Hin.
    rewrite (Hdue tm Hin Htk) in Hlate. lia.
  - change (resizeCalls (advance_to t' p))
      with (resizeCalls (run_timers (length (timers p)) t' p)).
    rewrite <- (Hdue X HX HXk).
    apply run_timers_fires_resize; try done; rewrite (Hdue X HX HXk); lia.
Qed.

Lemma onResize_arms p : timers_wf p → resize_armed (now p) (onResize p).
Proof.
  intros Hwf. destruct (debounced_spec 250 p Hwf) as (_ & HX & Hdue).
  destruct (onResize_frame p) as (_ & _ & _ & _ & _ & Hn & _).
  split_and!; [by eexists | done | rewrite Hn; lia].
Qed.

Lemma toggle_appends_clears id cls key onMsg offMsg p :
  ∃ l, timers (page_of (togglePreference id cls key onMsg offMsg p)) = timers p ++ l ∧
       (∀ tm, tm ∈ l → task tm = ClearLiveRegion ∧ due tm = now p + 100) ∧
       now (page_of (togglePreference id cls key onMsg offMsg p)) = now p ∧
       resizeCalls (page_of (togglePreference id cls key onMsg offMsg p))
       = resizeCalls p.
Proof.
  unfold togglePreference. destruct (getElementById id p) as [btn |].
  - exists [mkTimer (nextTimer p) (now p + 100) ClearLiveRegion].
    match goal with |- context [page_of (setItem ?k ?v ?q)] =>
      destruct (setItem_frame k v q)
        as (_ & _ & _ & _ & -> & _ & -> & _ & -> & _)
    end.
    split_and!; try by case_bool_decide.
    by intros tm ->%list_elem_of_singleton.
  - exists []. simpl. rewrite app_nil_r. split_and!; try done.
    intros tm Hin. by apply elem_of_nil in Hin.
Qed.

Lemma handle_appends_clears ev p :
  ev ≠ Resize →
  ∃ l, timers (page_of (handle ev p)) = timers p ++ l ∧
       (∀ tm, tm ∈ l → task tm = ClearLiveRegion ∧ due tm = now p + 100) ∧
       now (page_of (handle ev p)) = now p ∧
       resizeCalls (page_of (handle ev p)) = resizeCalls p.
Proof.
  intros Hev.
  assert (Hnone : ∃ l, timers p = timers p ++ l ∧
            (∀ tm, tm ∈ l → task tm = ClearLiveRegion ∧ due tm = now p + 100) ∧
            now p = now p ∧ resizeCalls p = resizeCalls p).
  { exists []. rewrite app_nil_r. split_and!; try done.
    intros tm Hin. by apply elem_of_nil in Hin. }
  destruct ev as [| key | | key |]; simpl; [| | | | done];
    unfold highContrastKeydown, fontSizeKeydown;
    try (destruct (bool_decide (key = "Enter") || bool_decide (key = " "));
         [| exact Hnone]);
    rewrite ?toggleHighContrast_controller, ?toggleFontSize_controller;
    apply toggle_appends_clears.
Qed.

Lemma resize_state_append last p q l :
  timers q = timers p ++ l → (∀ tm, tm ∈ l → task tm = ClearLiveRegion) →
  now q = now p → resize_state last p → resize_state last q.
Proof.
  intros Ht Hl Hn. destruct last as [t |]; simpl.
  - intros ((X & HX & HXk) & Hdue & Hnow). split_and!.
    + exists X. split; [| done]. rewrite Ht. apply elem_of_app. by left.
    + intros tm Hin Htk. rewrite Ht in Hin.
      apply elem_of_app in Hin as [Hin | Hin]; [by apply Hdue |].
      rewrite (Hl tm Hin) in Htk. done.
    + by rewrite Hn.
  - intros Hi tm Hin. rewrite Ht in Hin.
    apply elem_of_app in Hin as [Hin | Hin]; [by apply Hi |].
    by rewrite (Hl tm Hin).
Qed.

Lemma sched_between_le sched : ∀ t0 T, sched_between t0 T sched → t0 ≤ T.
Proof.
  induction sched as [| [t ev] sched IH]; intros t0 T; simpl; [done |].
  intros [Hle Hrest]. specialize (IH _ _ Hrest). lia.
Qed.

Lemma resize_times_ge sched : ∀ t0 T x,
  sched_between t0 T sched → x ∈ resize_times sched → t0 ≤ x.
Proof.
  induction sched as [| [t ev] sched IH]; intros t0 T x; simpl.
  { intros _ Hin. by apply elem_of_nil in Hin. }
  intros [Hle Hrest] Hin.
  destruct ev; try (specialize (IH _ _ _ Hrest Hin); lia).
  apply elem_of_cons in Hin as [-> | Hin]; [done |].
  specialize (IH _ _ _ Hrest Hin). lia.
Qed.

Lemma settle_late t ts T :
  t + 250 ≤ T → (∀ x, x ∈ ts → t + 250 ≤ x) →
  settle 250 t ts T = [t + 250] ++ debounce_calls 250 ts T.
Proof.
  intros HT Hts. destruct ts as [| t' ts]; simpl.
  - by rewrite (proj2 (Nat.leb_le _ _)).
  - rewrite (proj2 (Nat.leb_le _ _)); [done |]. apply Hts. by left.
Qed.

(** The calls of the resize handler over any schedule, from a page on which
    the resize timer of the event at [last] (if any) is pending. *)
Lemma run_resize_calls sched : ∀ last p T,
  timers_wf p → resize_state last p → sched_between (now p) T sched →
  resizeCalls (advance_to T (run sched p))
  = resizeCalls p ++ calls_from last (resize_times sched) T.
Proof.
  induction sched as [| [t' ev] sched IH]; intros last p T Hwf Hst Hsched.
  - change (run [] p) with p. simpl in Hsched.
    destruct last as [t |]; cbn [calls_from resize_times settle debounce_calls];
      simpl in Hst.
    + destruct (t + 250 <=? T) eqn:Hle.
      * apply Nat.leb_le in Hle. exact (proj2 (advance_fire t T p Hwf Hst Hle)).
      * apply Nat.leb_gt in Hle. rewrite app_nil_r.
        exact (proj2 (advance_hold t T p Hst Hle)).
    + rewrite app_nil_r. exact (proj2 (advance_idle T p Hst)).
  - destruct Hsched as [Hle Hrest]. simpl in Hle.
    change (fst (t', ev)) with t' in Hrest.
    pose proof (sched_between_le _ _ _ Hrest) as HT.
    change (run ((t', ev) :: sched) p)
      with (run sched (page_of (handle ev (advance_to t' p)))).
    pose proof (advance_to_wf t' p Hwf) as Hwfa.
    assert (Hna : now (advance_to t' p) = t') by (rewrite advance_to_now; lia).
    (* the state once the clock has reached the event *)
    assert (Ha : ∃ last' fired,
               resize_state last' (advance_to t' p) ∧
               resizeCalls (advance_to t' p) = resizeCalls p ++ fired ∧
               calls_from last (resize_times ((t', ev) :: sched)) T
               = fired ++ match ev with
                          | Resize => settle 250 t' (resize_times sched) T
                          | _ => calls_from last' (resize_times sched) T
                          end).
    { destruct last as [t |]; simpl in Hst.
      - destruct (t + 250 <=? t') eqn:Hfire.
        + apply Nat.leb_le in Hfire.
          destruct (advance_fire t t' p Hwf Hst Hfire) as [Hidle Hc].
          exists None, [t + 250]. split_and!; [done | done |].
          destruct ev; simpl; rewrite ?(proj2 (Nat.leb_le _ _) Hfire); try done;
            apply settle_late; try lia;
            intros x Hx; pose proof (resize_times_ge _ _ _ x Hrest Hx); lia.
        + apply Nat.leb_gt in Hfire.
          destruct (advance_hold t t' p Hst Hfire) as [Harm Hc].
          exists (Some t), []. rewrite app_nil_r. split_and!; [done | done |].
          destruct ev; simpl; rewrite ?(proj2 (Nat.leb_gt _ _) Hfire); done.
      - destruct (advance_idle t' p Hst) as [Hidle Hc].
        exists None, []. rewrite app_nil_r. split_and!; [done | done |].
        by destruct ev. }
    destruct Ha as (last' & fired & Hst' & Hc & ->).
    destruct (decide (ev = Resize)) as [-> | Hev].
    + change (page_of (handle Resize (advance_to t' p)))
        with (onResize (advance_to t' p)).
      destruct (onResize_frame (advance_to t' p)) as (_ & _ & _ & _ & _ & Hn & Hrc).
      rewrite (IH (Some t') (onResize (advance_to t' p)) T).
      * rewrite Hrc, Hc. cbn [calls_from]. by rewrite <- app_assoc.
      * by apply debounced_spec.
      * pose proof (onResize_arms _ Hwfa) as Harm. by rewrite Hna in Harm.
      * by rewrite Hn, Hna.
    + destruct (handle_appends_clears ev (advance_to t' p) Hev)
        as (l & Ht & Hl & Hn & Hrc).
      rewrite (IH last' (page_of (handle ev (advance_to t' p))) T).
      * rewrite Hrc, Hc, <- app_assoc. by destruct ev.
      * by apply handle_wf.
      * apply (resize_state_append last' (advance_to t' p) _ l); try done.
        intros tm Hin. by apply Hl.
      * by rewrite Hn, Hna.
Qed.

(** X7.  The resize handler is debounced on its trailing edge, and nothing
    else on the page disturbs that.  Take a well-formed page with no resize
    timer pending and any schedule of clicks, key presses and resize events
    whose times do not go back.  By any time [T] after the schedule, the
    handler has been called exactly once for each resize event followed by
    at least 250 ms without another resize event (a timer due at the very
    time of an event runs before it), at 250 ms after that event, and at no
    other time. *)
Theorem debounce_over_session (p : Page) (sched : list (nat * Event)) (T : nat)
    (Hwf : timers_wf p) (Hidle : resize_idle p)
    (Hsched : sched_between (now p) T sched) :
  resizeCalls (advance_to T (run sched p))
  = resizeCalls p ++ debounce_calls 250 (resize_times sched) T.
Proof. by apply (run_resize_calls sched None). Qed.

Lemma debounce_over_session_witness :
  resizeCalls
    (advance_to 1000
       (run [(0, Resize); (10, ClickHighContrast); (100, Resize);
             (350, ClickFontSize); (400, Resize); (420, Resize);
             (430, KeydownFontSize "Enter")] samplePage))
  = [350; 670].
Proof.
  apply (debounce_over_session samplePage
           [(0, Resize); (10, ClickHighContrast); (100, Resize);
            (350, ClickFontSize); (400, Resize); (420, Resize);
            (430, KeydownFontSize "Enter")] 1000).
  - exact samplePage_wf.
  - intros tm Hin. by apply elem_of_nil in Hin.
  - simpl. lia.
Defined.

(** ** The live region over a whole session *)

(** [debounce]'s [clearTimeout] never hits a clearing of the live region. *)
Lemma onResize_keeps_clears p tm :
  timers_wf p → tm ∈ timers p → task tm = ClearLiveRegion →
  tm ∈ timers (onResize p).
Proof.
  intros (_ & _ & _ & Hres) Hin Htk. unfold onResize.
  destruct (debounced_fields 250 p) as (-> & _).
  apply elem_of_app. left. destruct (timeout p) as [h |] eqn:Hh; simpl; [| done].
  apply list_elem_of_filter. split; [| done]. intros <-.
  assert (task tm = RunResizeHandler) as Hr by (by apply Hres).
  rewrite Htk in Hr. done.
Qed.

Lemma advance_clear_pending t p : clear_pending p → clear_pending (advance_to t p).
Proof.
  intros [Hempty | (c & Hin & Htk & Hdue)].
  - left. rewrite advance_to_liveRegion.
    destruct (run_timers_liveRegion (length (timers p)) t p) as [-> | ->]; done.
  - destruct (decide (t < due c)) as [Hlt | Hge].
    + right. exists c. split_and!; [| done |].
      * rewrite advance_to_timers. by apply run_timers_keeps.
      * rewrite advance_to_now. lia.
    + left. rewrite advance_to_liveRegion.
      apply (run_timers_clears _ _ _ c); [done | done | done | lia].
Qed.

Lemma handle_clear_pending ev p :
  timers_wf p → clear_pending p → clear_pending (page_of (handle ev p)).
Proof.
  intros Hwf Hcp.
  assert (Htoggle : ∀ id cls key onMsg offMsg,
            clear_pending (page_of (togglePreference id cls key onMsg offMsg p))).
  { intros id cls key onMsg offMsg. unfold togglePreference.
    destruct (getElementById id p) as [btn |]; [| done].
    right. exists (mkTimer (nextTimer p) (now p + 100) ClearLiveRegion).
    match goal with |- context [page_of (setItem ?k ?v ?q)] =>
      destruct (setItem_frame k v q)
        as (_ & _ & _ & _ & -> & _ & -> & _)
    end.
    split_and!; [| done | by case_bool_decide].
    case_bool_decide; simpl; apply elem_of_app; right;
      by apply list_elem_of_singleton. }
  destruct ev as [| key | | key |]; simpl;
    unfold highContrastKeydown, fontSizeKeydown;
    try (destruct (bool_decide (key = "Enter") || bool_decide (key = " "));
         [| done]);
    rewrite ?toggleHighContrast_controller, ?toggleFontSize_controller;
    try apply Htoggle.
  destruct (onResize_frame p) as (_ & _ & _ & _ & Hl & Hn & _).
  destruct Hcp as [Hempty | (c & Hin & Htk & Hdue)].
  - left. by rewrite Hl.
  - right. exists c. split_and!; [by apply onResize_keeps_clears | done |].
    by rewrite Hn.
Qed.

Lemma run_clear_pending sched : ∀ p,
  timers_wf p → clear_pending p → clear_pending (run sched p).
Proof.
  induction sched as [| [t ev] sched IH]; intros p Hwf Hcp; [done |].
  simpl. apply IH.
  - unfold step. simpl. by apply handle_wf, advance_to_wf.
  - unfold step. simpl. apply handle_clear_pending; [by apply advance_to_wf |].
    by apply advance_clear_pending.
Qed.

(** X8.  No announcement outlives 100 ms of quiet.  On a well-formed page
    whose live region is empty or about to be cleared, after any clicks, key
    presses and resize events, at whatever times, the live region is empty
    once the clock is 100 ms past the last thing that happened: resize events
    cancel no clearing, and every message a toggle announces comes with its
    own. *)
Theorem live_region_settles_empty (p : Page) (sched : list (nat * Event)) (T : nat)
    (Hwf : timers_wf p) (Hcp : clear_pending p)
    (HT : now (run sched p) + 100 ≤ T) :
  liveRegion (advance_to T (run sched p)) = EmptyString.
Proof.
  destruct (run_clear_pending sched p Hwf Hcp) as [Hempty | (c & Hin & Htk & Hdue)].
  - rewrite advance_to_liveRegion.
    destruct (run_timers_liveRegion (length (timers (run sched p))) T (run sched p))
      as [-> | ->]; done.
  - rewrite advance_to_liveRegion.
    apply (run_timers_clears _ _ _ c); [done | done | done | lia].
Qed.

Lemma live_region_settles_empty_witness :
  liveRegion
    (run [(0, ClickHighContrast); (50, Resize); (60, ClickFontSize); (70, Resize)]
         samplePage)
  = "Large text mode turned on" ∧
  liveRegion
    (advance_to 170
       (run [(0, ClickHighContrast); (50, Resize); (60, ClickFontSize); (70, Resize)]
            samplePage))
  = EmptyString.
Proof.
  split; [reflexivity |].
  apply (live_region_settles_empty samplePage
           [(0, ClickHighContrast); (50, Resize); (60, ClickFontSize); (70, Resize)]
           170).
  - exact samplePage_wf.
  - by left.
  - by vm_compute.
Defined.

(** * The media-preference watchers *)

Lemma onReducedMotionChange_spec m q :
  set_classList (classList q) (onReducedMotionChange m q) = q ∧
  (∀ c, c ≠ "reduced-motion" →
        c ∈ classList (onReducedMotionChange m q) ↔ c ∈ classList q) ∧
  (hasMarker "reduced-motion" (onReducedMotionChange m q) ↔ m = true).
Proof.
  unfold onReducedMotionChange, hasMarker. destruct m; split_and!.
  - by destruct q.
  - intros c Hc. rewrite classList_add_elem. tauto.
  - rewrite classList_add_elem. tauto.
  - by destruct q.
  - intros c Hc. rewrite classList_remove_elem. tauto.
  - rewrite classList_remove_elem. split; [tauto | done].
Qed.

(** X9.  The reduced-motion marker follows the system setting once the
    setting has changed: after a change event the document carries
    [reduced-motion] exactly when the query matches, and so after any number
    of them it reflects the last one.  At load the marker is only ever added:
    with the query not matching, a marker the document was served with
    stays.  No other class and nothing else of the page is touched. *)
Theorem reduced_motion_follows_query (m0 : bool) (changes : list bool) (p : Page) :
  set_classList (classList p) (reducedMotionSession m0 changes p) = p ∧
  (∀ c, c ≠ "reduced-motion" →
        c ∈ classList (reducedMotionSession m0 changes p) ↔ c ∈ classList p) ∧
  (hasMarker "reduced-motion" (reducedMotionSession m0 changes p) ↔
   match last changes with
   | Some m => m = true
   | None => m0 = true ∨ hasMarker "reduced-motion" p
   end).
Proof.
  unfold reducedMotionSession.
  induction changes as [| m changes IH] using rev_ind.
  - simpl. unfold reducedMotionAtLoad, hasMarker. destruct m0; split_and!.
    + by destruct p.
    + intros c Hc. rewrite classList_add_elem. tauto.
    + rewrite classList_add_elem. split; [auto | tauto].
    + by destruct p.
    + done.
    + split; [auto | intros [? | ?]; done].
  - rewrite foldl_snoc, last_snoc.
    destruct IH as (Hf & Hc & _).
    destruct (onReducedMotionChange_spec m
                (foldl (λ q m, onReducedMotionChange m q)
                   (reducedMotionAtLoad m0 p) changes)) as (Hf' & Hc' & Hm').
    split_and!; [| | done].
    + revert Hf Hf'.
      generalize (onReducedMotionChange m
                    (foldl (λ q m, onReducedMotionChange m q)
                       (reducedMotionAtLoad m0 p) changes)).
      generalize (foldl (λ q m, onReducedMotionChange m q)
                    (reducedMotionAtLoad m0 p) changes).
      clear. intros x y Hf Hf'. destruct p, x, y.
      unfold set_classList in *. simpl in *.
      injection Hf as -> -> -> -> -> -> -> -> -> ->.
      injection Hf' as -> -> -> -> -> -> -> -> -> ->. reflexivity.
    + intros c Hne. rewrite Hc' by done. by apply Hc.
Qed.

Lemma updateDarkMode_spec m r :
  getAttribute (updateDarkMode m r) "data-theme"
  = Some (if m then "dark" else "light") ∧
  ∀ k, k ≠ "data-theme" → getAttribute (updateDarkMode m r) k = getAttribute r k.
Proof.
  unfold updateDarkMode, getAttribute. destruct m; simpl; split;
    try apply lookup_insert_eq; intros k Hk; by rewrite lookup_insert_ne.
Qed.

(** X10.  The theme attribute is always set and always current: once the
    script has run, and after any number of colour-scheme changes, the
    document root has [data-theme="dark"] if the latest value of the query
    (the one at load when there was no change) matches and
    [data-theme="light"] if not, whatever the attribute was before; no other
    attribute of the root is touched. *)
Theorem data_theme_follows_query (m0 : bool) (changes : list bool) (root : Element) :
  getAttribute (darkModeSession m0 changes root) "data-theme"
  = Some (if default m0 (last changes) then "dark" else "light") ∧
  ∀ k, k ≠ "data-theme" →
       getAttribute (darkModeSession m0 changes root) k = getAttribute root k.
Proof.
  unfold darkModeSession.
  induction changes as [| m changes IH] using rev_ind.
  - simpl. apply updateDarkMode_spec.
  - rewrite foldl_snoc, last_snoc. simpl.
    destruct (updateDarkMode_spec m
                (foldl (λ r m, updateDarkMode m r) (updateDarkMode m0 root) changes))
      as [Ht Ho].
    split; [done |]. intros k Hk. rewrite Ho by done. by apply IH.
Qed.

(** * The keyboard-navigation detector *)

Lemma keyups_unregistered keys p : keyups keys (false, p) = (false, p).
Proof. induction keys as [| k keys IH]; [done |]. exact IH. Qed.

(** X11.  The detector fires once, on the first Tab.  Starting with the
    listener registered, after any sequence of keyup events: if a Tab was
    among them the document carries [keyboard-navigation] (added once, the
    rest of the page untouched) and the listener is gone; if not, the page is
    exactly as it was and the listener is still registered.  Once the
    listener is gone no key changes anything. *)
Theorem keyboard_mode_on_first_tab (keys : list string) (p : Page) :
  keyups keys (true, p)
  = (if bool_decide ("Tab" ∈ keys)
     then (false, classList_add "keyboard-navigation" p)
     else (true, p)) ∧
  keyups keys (false, p) = (false, p).
Proof.
  split; [| apply keyups_unregistered].
  induction keys as [| k keys IH]; [done |].
  change (keyups (k :: keys) (true, p)) with (keyups keys (onKeyup k (true, p))).
  unfold onKeyup. cbn [fst snd]. destruct (decide (k = "Tab")) as [-> | Hk].
  - rewrite (bool_decide_eq_true_2 ("Tab" = "Tab")) by done.
    rewrite keyups_unregistered.
    rewrite bool_decide_eq_true_2; [done | by left].
  - rewrite (bool_decide_eq_false_2 (k = "Tab")) by done.
    rewrite IH. apply (f_equal (λ b : bool, if b then _ else _)).
    apply bool_decide_ext. rewrite elem_of_cons. split; [auto |].
    intros [? | ?]; [congruence | done].
Qed.

(** * The tab order *)

Lemma matchesFocusable_false n :
  matchesFocusable n = false →
  (localName n ∉ ["button"; "input"; "select"; "textarea"]) ∧
  getAttribute (nodeElement n) "href" = None ∧
  (getAttribute (nodeElement n) "tabindex" = None ∨
   getAttribute (nodeElement n) "tabindex" = Some "-1").
Proof.
  unfold matchesFocusable. intros H.
  repeat (apply orb_false_iff in H as [H ?]).
  repeat match goal with
         | Hb : bool_decide _ = false |- _ => apply bool_decide_eq_false in Hb
         end.
  split_and!.
  - rewrite !elem_of_cons, elem_of_nil. tauto.
  - destruct (getAttribute (nodeElement n) "href") eqn:E; [| done].
    exfalso. eauto.
  - destruct (getAttribute (nodeElement n) "tabindex") as [v |] eqn:E; [| by left].
    right. apply andb_false_iff in H0 as [H0 | H0].
    + apply bool_decide_eq_false in H0. exfalso. eauto.
    + apply negb_false_iff, bool_decide_eq_true in H0. done.
Qed.

Lemma forcedNode_idem n : forcedNode (forcedNode n) = forcedNode n.
Proof.
  unfold forcedNode. destruct (matchesFocusable n) eqn:Hm; [| by rewrite Hm].
  assert (matchesFocusable
            (mkNode (localName n) (setAttribute "tabindex" "0" (nodeElement n)))
          = true) as ->.
  { unfold matchesFocusable, getAttribute. simpl. rewrite lookup_insert_eq.
    rewrite (bool_decide_eq_true_2 (is_Some (Some "0"))) by eauto.
    rewrite (bool_decide_eq_false_2 (Some "0" = Some "-1")) by done.
    simpl. by rewrite !orb_true_r. }
  simpl. unfold setAttribute. simpl. by rewrite insert_insert_eq.
Qed.

(** X12.  After the tab-order pass every element is either in the default
    tab order ([tabindex="0"]) or is a non-interactive element (not a button,
    input, select or textarea, no [href]) that has no [tabindex] or has
    [tabindex="-1"], and such an element is left exactly as it was.  So a
    positive tab index is flattened to 0, and a "-1" on a button, link or
    form control is overridden.  Tags and all other attributes are kept, the
    elements keep their order, and a second pass changes nothing. *)
Theorem tab_order_is_forced (nodes : list Node) (i : nat) (n : Node)
    (Hi : nodes !! i = Some n) :
  length (forceTabOrder nodes) = length nodes ∧
  forceTabOrder (forceTabOrder nodes) = forceTabOrder nodes ∧
  ∃ n', forceTabOrder nodes !! i = Some n' ∧
        localName n' = localName n ∧
        (∀ k, k ≠ "tabindex" →
              getAttribute (nodeElement n') k = getAttribute (nodeElement n) k) ∧
        (getAttribute (nodeElement n') "tabindex" = Some "0" ∨
         (n' = n ∧
          (localName n ∉ ["button"; "input"; "select"; "textarea"]) ∧
          getAttribute (nodeElement n) "href" = None ∧
          (getAttribute (nodeElement n) "tabindex" = None ∨
           getAttribute (nodeElement n) "tabindex" = Some "-1"))).
Proof.
  unfold forceTabOrder. split_and!.
  - apply length_fmap.
  - rewrite <- (list_fmap_compose forcedNode forcedNode). apply list_fmap_ext.
    intros j x _. apply forcedNode_idem.
  - exists (forcedNode n). rewrite list_lookup_fmap, Hi. split; [done |].
    unfold forcedNode. destruct (matchesFocusable n) eqn:Hm; simpl.
    + split_and!; [done | |].
      * intros k Hk. unfold getAttribute. simpl. by rewrite lookup_insert_ne.
      * left. unfold getAttribute. simpl. apply lookup_insert_eq.
    + split_and!; [done | done |]. right. split; [done |].
      by apply matchesFocusable_false.
Qed.

Lemma tab_order_is_forced_witness :
  ∃ n', (forceTabOrder
           [mkNode "button" (mkElement {["tabindex" := "-1"]});
            mkNode "div" (mkElement {["tabindex" := "-1"]});
            mkNode "span" (mkElement {["tabindex" := "3"]});
            mkNode "a" (mkElement {["href" := "#main"]});
            mkNode "p" (mkElement ∅)]
           !! 0) = Some n' ∧
        localName n' = "button" ∧
        getAttribute (nodeElement n') "tabindex" = Some "0".
Proof.
  destruct (tab_order_is_forced
              [mkNode "button" (mkElement {["tabindex" := "-1"]});
               mkNode "div" (mkElement {["tabindex" := "-1"]});
               mkNode "span" (mkElement {["tabindex" := "3"]});
               mkNode "a" (mkElement {["href" := "#main"]});
               mkNode "p" (mkElement ∅)]
              0 (mkNode "button" (mkElement {["tabindex" := "-1"]})) eq_refl)
    as (_ & _ & n' & H & Hname & _ & [H0 | (_ & Hno & _)]).
  - exists n'. done.
  - exfalso. apply Hno. simpl. apply elem_of_cons. by left.
Defined.

(** * The image backfill, once more *)

(** X13.  After the backfill no image is without an [alt] attribute (the
    selector [img:not([alt])] matches nothing any more), and running the
    backfill again changes nothing. *)
Theorem backfill_leaves_no_image_undescribed (p : Page) :
  (∀ img, img ∈ images (backfillImages p) → is_Some (getAttribute img "alt")) ∧
  backfillImages (backfillImages p) = backfillImages p.
Proof.
  assert (Hall : ∀ img, is_Some (getAttribute (backfillAlt img) "alt")).
  { intros img. unfold backfillAlt.
    destruct (getAttribute img "alt") as [v |] eqn:E; [by rewrite E |].
    unfold getAttribute. simpl. rewrite lookup_insert_eq. eauto. }
  split.
  - intros img Hin. unfold backfillImages in Hin. simpl in Hin.
    apply list_elem_of_fmap in Hin as (img0 & -> & _). apply Hall.
  - unfold backfillImages, set_images. simpl. f_equal.
    rewrite <- (list_fmap_compose backfillAlt backfillAlt). apply list_fmap_ext.
    intros j img _. simpl.
    destruct (Hall img) as [v Hv]. by apply (backfillAlt_present _ v).
Qed.

(** * The other transitions of the toggles *)

(** X14.  Activating the high-contrast control while it is pressed removes
    the marker class from the document root, sets aria-pressed to "false"
    and puts the off-message in the live region, its clearing scheduled
    100 ms ahead; then, if the store accepts the write, "false" is stored
    under [highContrast] and the handler returns, and if the store refuses
    it the handler throws with the stored value as it was.  Every other
    class, element, attribute of the control, stored key and the rest of the
    page are as before. *)
Theorem deactivate_high_contrast (p : Page) (Hon : pressed "high-contrast" p) :
  ∃ p', toggleHighContrast p
        = (if storeAccepts p (localStorage p) "highContrast" "false"
           then Returned p' else Threw p') ∧
        ¬ hasMarker "high-contrast" p' ∧
        ariaPressed "high-contrast" p' = Some "false" ∧
        getItem "highContrast" p'
        = (if storeAccepts p (localStorage p) "highContrast" "false"
           then Some "false" else getItem "highContrast" p) ∧
        liveRegion p' = "High contrast mode turned off" ∧
        timers p' =
          timers p ++ [mkTimer (nextTimer p) (now p + 100) ClearLiveRegion] ∧
        (∀ c, c ≠ "high-contrast" → c ∈ classList p' ↔ c ∈ classList p) ∧
        (∀ i, i ≠ "high-contrast" → getElementById i p' = getElementById i p) ∧
        (∀ k, k ≠ "aria-pressed" →
              (getElementById "high-contrast" p' ≫= λ e, getAttribute e k) =
              (getElementById "high-contrast" p ≫= λ e, getAttribute e k)) ∧
        (∀ k, k ≠ "highContrast" → getItem k p' = getItem k p) ∧
        images p' = images p ∧ now p' = now p ∧
        timeout p' = timeout p ∧ resizeCalls p' = resizeCalls p.
Proof. rewrite toggleHighContrast_controller. by apply toggle_off_effects. Qed.

Lemma deactivate_high_contrast_witness :
  (∃ p', toggleHighContrast
           (setAttributeById "high-contrast" "aria-pressed" "true"
              (classList_add "high-contrast" samplePage)) = Returned p' ∧
         ¬ hasMarker "high-contrast" p' ∧
         ariaPressed "high-contrast" p' = Some "false" ∧
         getItem "highContrast" p' = Some "false" ∧
         liveRegion p' = "High contrast mode turned off") ∧
  (∃ p', toggleHighContrast refusingPageOn = Threw p' ∧
         ¬ hasMarker "high-contrast" p' ∧
         ariaPressed "high-contrast" p' = Some "false" ∧
         getItem "highContrast" p' = None ∧
         liveRegion p' = "High contrast mode turned off").
Proof.
  split.
  - destruct (deactivate_high_contrast
                (setAttributeById "high-contrast" "aria-pressed" "true"
                   (classList_add "high-contrast" samplePage)))
      as (p' & H & H1 & H2 & H3 & H4 & _).
    + reflexivity.
    + exists p'. done.
  - destruct (deactivate_high_contrast refusingPageOn)
      as (p' & H & H1 & H2 & H3 & H4 & _).
    + reflexivity.
    + exists p'. done.
Defined.

(** X15.  The font-size control in both directions.  Activated while not
    pressed: the [large-text] class is on the document root, aria-pressed is
    "true", the on-message is announced.  Activated while pressed: the class
    is gone, aria-pressed is "false", the off-message is announced.  Either
    way the message's clearing is scheduled 100 ms ahead; then, if the store
    accepts the write, "true" (respectively "false") is stored under
    [largeText] and the handler returns, and if the store refuses it the
    handler throws with the stored value as it was.  Every other class,
    element, attribute of the control, stored key and the rest of the page
    are as before. *)
Theorem font_size_transitions (p : Page) :
  (is_Some (getElementById "font-size" p) → ¬ pressed "font-size" p →
   ∃ p', toggleFontSize p
         = (if storeAccepts p (localStorage p) "largeText" "true"
            then Returned p' else Threw p') ∧
         hasMarker "large-text" p' ∧
         ariaPressed "font-size" p' = Some "true" ∧
         getItem "largeText" p'
         = (if storeAccepts p (localStorage p) "largeText" "true"
            then Some "true" else getItem "largeText" p) ∧
         liveRegion p' = "Large text mode turned on" ∧
         timers p' =
           timers p ++ [mkTimer (nextTimer p) (now p + 100) ClearLiveRegion] ∧
         (∀ c, c ≠ "large-text" → c ∈ classList p' ↔ c ∈ classList p) ∧
         (∀ i, i ≠ "font-size" → getElementById i p' = getElementById i p) ∧
         (∀ k, k ≠ "aria-pressed" →
               (getElementById "font-size" p' ≫= λ e, getAttribute e k) =
               (getElementById "font-size" p ≫= λ e, getAttribute e k)) ∧
         (∀ k, k ≠ "largeText" → getItem k p' = getItem k p) ∧
         images p' = images p ∧ now p' = now p ∧
         timeout p' = timeout p ∧ resizeCalls p' = resizeCalls p) ∧
  (pressed "font-size" p →
   ∃ p', toggleFontSize p
         = (if storeAccepts p (localStorage p) "largeText" "false"
            then Returned p' else Threw p') ∧
         ¬ hasMarker "large-text" p' ∧
         ariaPressed "font-size" p' = Some "false" ∧
         getItem "largeText" p'
         = (if storeAccepts p (localStorage p) "largeText" "false"
            then Some "false" else getItem "largeText" p) ∧
         liveRegion p' = "Large text mode turned off" ∧
         timers p' =
           timers p ++ [mkTimer (nextTimer p) (now p + 100) ClearLiveRegion] ∧
         (∀ c, c ≠ "large-text" → c ∈ classList p' ↔ c ∈ classList p) ∧
         (∀ i, i ≠ "font-size" → getElementById i p' = getElementById i p) ∧
         (∀ k, k ≠ "aria-pressed" →
               (getElementById "font-size" p' ≫= λ e, getAttribute e k) =
               (getElementById "font-size" p ≫= λ e, getAttribute e k)) ∧
         (∀ k, k ≠ "largeText" → getItem k p' = getItem k p) ∧
         images p' = images p ∧ now p' = now p ∧
         timeout p' = timeout p ∧ resizeCalls p' = resizeCalls p).
Proof.
  rewrite toggleFontSize_controller. split.
  - apply toggle_on_effects.
  - apply toggle_off_effects.
Qed.

Lemma font_size_transitions_witness :
  (∃ p', toggleFontSize samplePage = Returned p' ∧
         hasMarker "large-text" p' ∧
         getItem "largeText" p' = Some "true" ∧
         liveRegion p' = "Large text mode turned on") ∧
  (∃ p', toggleFontSize
           (setAttributeById "font-size" "aria-pressed" "true" samplePage)
         = Returned p' ∧
         ¬ hasMarker "large-text" p' ∧
         getItem "largeText" p' = Some "false" ∧
         liveRegion p' = "Large text mode turned off") ∧
  (∃ p', toggleFontSize refusingPage = Threw p' ∧
         hasMarker "large-text" p' ∧
         getItem "largeText" p' = None ∧
         liveRegion p' = "Large text mode turned on").
Proof.
  split_and!.
  - destruct (font_size_transitions samplePage) as [Hon _].
    destruct Hon as (p' & H & H1 & _ & H3 & H4 & _).
    + eexists; reflexivity.
    + apply (bool_decide_unpack _). by vm_compute.
    + exists p'. done.
  - destruct (font_size_transitions
                (setAttributeById "font-size" "aria-pressed" "true" samplePage))
      as [_ Hoff].
    destruct Hoff as (p' & H & H1 & _ & H3 & H4 & _).
    + reflexivity.
    + exists p'. done.
  - destruct (font_size_transitions refusingPage) as [Hon _].
    destruct Hon as (p' & H & H1 & _ & H3 & H4 & _).
    + eexists; reflexivity.
    + apply (bool_decide_unpack _). by vm_compute.
    + exists p'. done.
Defined.

(** * Timers do not pile up *)

Lemma wf_resize_at_most_one p :
  timers_wf p →
  length (filter (λ tm, task tm = RunResizeHandler) (timers p)) ≤ 1.
Proof.
  intros (Hnd & _ & _ & Hres).
  assert (Hsame : ∀ x y,
            x ∈ filter (λ tm, task tm = RunResizeHandler) (timers p) →
            y ∈ filter (λ tm, task tm = RunResizeHandler) (timers p) →
            tid x = tid y).
  { intros x y [Hx Hxi]%list_elem_of_filter [Hy Hyi]%list_elem_of_filter.
    apply (Hres x Hxi) in Hx. apply (Hres y Hyi) in Hy. congruence. }
  assert (Hnd' : NoDup (tid <$> filter (λ tm, task tm = RunResizeHandler) (timers p))).
  { eapply sublist_NoDup; [exact Hnd |]. apply fmap_sublist, sublist_filter. }
  destruct (filter (λ tm, task tm = RunResizeHandler) (timers p))
    as [| a [| b l]]; simpl; [lia | lia |].
  exfalso. rewrite !fmap_cons in Hnd'. apply NoDup_cons in Hnd' as [Hna _].
  apply Hna. rewrite (Hsame a b); [by left | by left | right; by left].
Qed.

(** X16.  The debounce never leaves more than one resize timer pending: on a
    well-formed page, after any clicks, key presses and resize events at
    whatever times, at most one timer of the resize handler is in the
    queue. *)
Theorem resize_timers_do_not_pile_up (p : Page) (sched : list (nat * Event))
    (Hwf : timers_wf p) :
  length (filter (λ tm, task tm = RunResizeHandler) (timers (run sched p))) ≤ 1.
Proof. by apply wf_resize_at_most_one, run_wf. Qed.

Lemma resize_timers_do_not_pile_up_witness :
  length (filter (λ tm, task tm = RunResizeHandler)
            (timers (run [(0, Resize); (5, Resize); (7, ClickFontSize); (9, Resize)]
                         samplePage))) ≤ 1.
Proof.
  apply (resize_timers_do_not_pile_up samplePage
           [(0, Resize); (5, Resize); (7, ClickFontSize); (9, Resize)]).
  exact samplePage_wf.
Defined.

(** * The remaining properties on the sample page *)

Lemma restoration_is_quiet_witness :
  "no-js" ∈ classList (page_of (initAccessibilityFeatures samplePage)) ∧
  "js-focus-visible" ∈ classList (page_of (initAccessibilityFeatures samplePage)) ∧
  liveRegion (page_of (initAccessibilityFeatures samplePage)) = liveRegion samplePage.
Proof.
  destruct (restoration_is_quiet samplePage) as (Hf & Hc & _ & Hj).
  split_and!.
  - apply Hc. apply elem_of_cons. by left.
  - apply Hj. reflexivity.
  - rewrite <- Hf at 2. reflexivity.
Defined.

Lemma reduced_motion_follows_query_witness :
  hasMarker "reduced-motion" (reducedMotionSession false [true; false; true] samplePage) ∧
  "no-js" ∈ classList (reducedMotionSession false [true; false; true] samplePage).
Proof.
  destruct (reduced_motion_follows_query false [true; false; true] samplePage)
    as (_ & Hc & Hm).
  split.
  - apply Hm. reflexivity.
  - apply Hc; [done |]. apply elem_of_cons. by left.
Defined.

Lemma data_theme_follows_query_witness :
  getAttribute (darkModeSession true [false] (mkElement {["lang" := "en"]})) "data-theme"
  = Some "light" ∧
  getAttribute (darkModeSession true [false] (mkElement {["lang" := "en"]})) "lang"
  = Some "en".
Proof.
  destruct (data_theme_follows_query true [false] (mkElement {["lang" := "en"]}))
    as [Ht Ho].
  split; [exact Ht |]. rewrite Ho by done. reflexivity.
Defined.

Lemma backfill_leaves_no_image_undescribed_witness :
  is_Some (getAttribute (backfillAlt (mkElement {["src" := "soup.jpg"]})) "alt").
Proof.
  destruct (backfill_leaves_no_image_undescribed samplePage) as [Hall _].
  apply Hall.
  change (images (backfillImages samplePage)) with (backfillAlt <$> images samplePage).
  apply list_elem_of_fmap_2. apply elem_of_cons. by left.
Defined.
